(** * create-congnv-template: the scaffolding command of [src/index.ts]

    A shallow embedding of the command-line tool and the proofs of its
    specified properties.  The development follows the source file from top
    to bottom: JavaScript strings and the string built-ins the helpers call,
    the regular expressions of the helpers, the name normalizer
    ([formatTargetDir], [isValidPackageName], [toValidPackageName]), the
    catalog fetch loop, and finally [init] over an explicit world (file
    system, command line, user, catalog server, git). *)

From Stdlib Require Import ZArith List Bool Lia String Ascii.
From stdpp Require Import base decidable option list countable gmap.

Local Open Scope Z_scope.
Local Open Scope list_scope.

(** ** JavaScript strings

    A JavaScript string is a sequence of UTF-16 code units; none of the
    regular expressions of the source carries the [u] flag, so classes and
    quantifiers range over code units. *)

Module JsString.

(** A literal: the code units of an ASCII text. *)
Fixpoint lit (s : string) : list Z :=
  match s with
  | EmptyString => []
  | String a r => Z.of_nat (nat_of_ascii a) :: lit r
  end.

Definition between (lo hi c : Z) : bool := (lo <=? c) && (c <=? hi).

Definition one_of (cs : list Z) (c : Z) : bool := existsb (Z.eqb c) cs.

(** WhiteSpace and LineTerminator of ECMAScript: what [trim] strips and
    what [\s] matches. *)
Definition is_space (c : Z) : bool :=
  one_of [0x09; 0x0A; 0x0B; 0x0C; 0x0D; 0x20; 0xA0; 0x1680;
          0x2028; 0x2029; 0x202F; 0x205F; 0x3000; 0xFEFF] c
  || between 0x2000 0x200A c.

Fixpoint drop_while (p : Z -> bool) (s : list Z) : list Z :=
  match s with
  | [] => []
  | c :: r => if p c then drop_while p r else s
  end.

(** Removes the longest suffix whose units all satisfy [p]. *)
Fixpoint drop_while_end (p : Z -> bool) (s : list Z) : list Z :=
  match s with
  | [] => []
  | c :: r =>
      match drop_while_end p r with
      | [] => if p c then [] else [c]
      | r' => c :: r'
      end
  end.

(** [String.prototype.trim]. *)
Definition trim (s : list Z) : list Z :=
  drop_while_end is_space (drop_while is_space s).

(** The lower-case mapping of a code unit below 128. *)
Definition ascii_lower (c : Z) : Z :=
  if between 65 90 c then c + 32 else c.

(** [String.prototype.toLowerCase].  Code units below 128 are mapped by
    [ascii_lower] whatever surrounds them.  What a unit from 128 upwards
    becomes is decided by the Unicode tables of the runtime, and may depend
    on the text around it (final sigma) and span several units (surrogate
    pairs, [U+0130]): the table [tbl] receives the reversed prefix, the
    unit and the suffix. *)
Definition lower_table := list Z -> Z -> list Z -> list Z.

Fixpoint lower_from (tbl : lower_table) (rev_before s : list Z) : list Z :=
  match s with
  | [] => []
  | c :: r =>
      (if c <? 128 then [ascii_lower c] else tbl rev_before c r)
        ++ lower_from tbl (c :: rev_before) r
  end.

Definition toLowerCase (tbl : lower_table) (s : list Z) : list Z :=
  lower_from tbl [] s.

(** A table that leaves every unit from 128 upwards as it is; used to run
    the program on concrete inputs. *)
Definition keep_table : lower_table := fun _ c _ => [c].

End JsString.

Import JsString.

(** ** Regular expressions

    [RegExp.prototype.test] on an expression anchored at both ends is
    full-string matching; it is run by derivatives over this syntax. *)

Module Regex.

Inductive re : Type :=
| Void : re                      (* matches nothing *)
| Eps : re                       (* the empty string *)
| Cls : (Z -> bool) -> re        (* one unit of a class *)
| Seq : re -> re -> re
| Alt : re -> re -> re
| Star : re -> re.

Definition Chr (c : Z) : re := Cls (Z.eqb c).
Definition Opt (r : re) : re := Alt Eps r.

Fixpoint nullable (r : re) : bool :=
  match r with
  | Void => false
  | Eps => true
  | Cls _ => false
  | Seq a b => nullable a && nullable b
  | Alt a b => nullable a || nullable b
  | Star _ => true
  end.

Fixpoint deriv (c : Z) (r : re) : re :=
  match r with
  | Void => Void
  | Eps => Void
  | Cls p => if p c then Eps else Void
  | Seq a b =>
      if nullable a then Alt (Seq (deriv c a) b) (deriv c b)
      else Seq (deriv c a) b
  | Alt a b => Alt (deriv c a) (deriv c b)
  | Star a => Seq (deriv c a) (Star a)
  end.

Fixpoint matches (r : re) (s : list Z) : bool :=
  match s with
  | [] => nullable r
  | c :: t => matches (deriv c r) t
  end.

(** [s.replace(/[p]+/g, rep)]: scanning from the left, every match is a
    maximal run of units of the class (the quantifier is greedy and the
    next search starts after the match), and each is replaced by [rep].
    [in_run] records that the unit before belongs to a run already
    replaced. *)
Fixpoint replace_runs_from (p : Z -> bool) (rep : list Z) (in_run : bool)
    (s : list Z) : list Z :=
  match s with
  | [] => []
  | c :: t =>
      if p c then
        (if in_run then [] else rep) ++ replace_runs_from p rep true t
      else c :: replace_runs_from p rep false t
  end.

Definition replace_runs (p : Z -> bool) (rep s : list Z) : list Z :=
  replace_runs_from p rep false s.

(** [s.replace(/^[p]/, rep)]: without the [g] and [m] flags the only
    possible match is the first unit. *)
Definition replace_first_unit (p : Z -> bool) (rep s : list Z) : list Z :=
  match s with
  | c :: t => if p c then rep ++ t else s
  | [] => []
  end.

(** [s.replace(/[p]+$/g, rep)]: the only match is the maximal run of units
    of the class that ends the string, when there is one. *)
Definition replace_final_run (p : Z -> bool) (rep s : list Z) : list Z :=
  let kept := drop_while_end p s in
  if (length kept <? length s)%nat then kept ++ rep else s.

End Regex.

Import Regex.

(** ** The helpers of [src/index.ts] *)

Definition slash : Z := 47.
Definition hyphen : Z := 45.

(** [targetDir?.trim().replace(/\/+$/g, '')]; [None] is [undefined]. *)
Definition formatTargetDir (targetDir : option (list Z)) : option (list Z) :=
  match targetDir with
  | None => None
  | Some s => Some (replace_final_run (Z.eqb slash) [] (trim s))
  end.

(** The character classes of the two expressions.  [\d] is [0-9]. *)
Definition lower_or_digit (c : Z) : bool := between 97 122 c || between 48 57 c.

(** [[a-z\d\-~]] *)
Definition name_head (c : Z) : bool := lower_or_digit c || one_of [45; 126] c.
(** [[a-z\d\-._~]] *)
Definition name_tail (c : Z) : bool := lower_or_digit c || one_of [45; 46; 95; 126] c.
(** [[a-z\d\-*~]] *)
Definition scope_head (c : Z) : bool := lower_or_digit c || one_of [45; 42; 126] c.
(** [[a-z\d\-*._~]] *)
Definition scope_tail (c : Z) : bool := lower_or_digit c || one_of [45; 42; 46; 95; 126] c.

(** [/^(?:@[a-z\d\-*~][a-z\d\-*._~]*\/)?[a-z\d\-~][a-z\d\-._~]*$/] *)
Definition package_name_re : re :=
  Seq (Opt (Seq (Chr 64) (Seq (Cls scope_head) (Seq (Star (Cls scope_tail)) (Chr slash)))))
      (Seq (Cls name_head) (Star (Cls name_tail))).

Definition isValidPackageName (projectName : list Z) : bool :=
  matches package_name_re projectName.

(** [[._]] and the complement class [[^a-z\d\-~]]. *)
Definition dot_or_underscore (c : Z) : bool := one_of [46; 95] c.
Definition not_name_head (c : Z) : bool := negb (name_head c).

Definition toValidPackageName (tbl : lower_table) (projectName : list Z) : list Z :=
  replace_runs not_name_head [hyphen]
    (replace_first_unit dot_or_underscore []
       (replace_runs is_space [hyphen]
          (toLowerCase tbl (trim projectName)))).

(** *** The normalizer as the specification words it

    "Replaces each run of ... with a single hyphen": the string is cut into
    its maximal blocks of units inside and outside the class, and every
    block inside the class becomes the replacement. *)

Fixpoint blocks (p : Z -> bool) (s : list Z) : list (bool * list Z) :=
  match s with
  | [] => []
  | c :: t =>
      match blocks p t with
      | (b, r) :: rest =>
          if Bool.eqb b (p c) then (b, c :: r) :: rest
          else (p c, [c]) :: (b, r) :: rest
      | [] => [(p c, [c])]
      end
  end.

Definition rewrite_block (rep : list Z) (blk : bool * list Z) : list Z :=
  if fst blk then rep else snd blk.

Definition each_run_becomes (p : Z -> bool) (rep s : list Z) : list Z :=
  concat (map (rewrite_block rep) (blocks p s)).

(** "Strips a single leading dot or underscore". *)
Definition strip_one_leading_dot_or_underscore (s : list Z) : list Z :=
  match s with
  | c :: t => if (c =? 46) || (c =? 95) then t else s
  | [] => []
  end.

(** The accepted set: lower-case letters, digits, hyphen and tilde. *)
Definition accepted (c : Z) : bool :=
  between 97 122 c || between 48 57 c || (c =? 45) || (c =? 126).

Definition spec_toValidPackageName (tbl : lower_table) (name : list Z) : list Z :=
  each_run_becomes (fun c => negb (accepted c)) [hyphen]
    (strip_one_leading_dot_or_underscore
       (each_run_becomes is_space [hyphen]
          (toLowerCase tbl (trim name)))).

(** Observations on the ends of a string, used to state what the helpers
    guarantee. *)
Definition starts_with (p : Z -> bool) (s : list Z) : bool :=
  match head s with Some c => p c | None => false end.

Definition ends_with (p : Z -> bool) (s : list Z) : bool :=
  match last s with Some c => p c | None => false end.

(** ** The template catalog *)

(** An item of [response.data.items]; the loop reads three of its fields. *)
Record Repo := {
  repo_name : list Z;
  repo_full_name : list Z;
  repo_description : option (list Z);
  repo_clone_url : list Z
}.

Record ITemplate := {
  name : list Z;
  description : option (list Z);
  clone_url : list Z
}.

Inductive RequestError :=
| HttpError (status : Z)
| TransportError.

(** What [octokit.request] settles to: a rejection, or [data.items] with
    [data.total_count]. *)
Inductive Response :=
| Rejected (e : RequestError)
| Page (items : list Repo) (total_count : Z).

(** What the loop sees: the outcome of its call number [n] (from 0) of
    [octokit.request].  The loop makes the same call every time. *)
Definition Server := nat -> Response.

Definition to_template (repo : Repo) : ITemplate :=
  {| name := repo_name repo;
     description := repo_description repo;
     clone_url := repo_clone_url repo |}.

Inductive Fetch :=
| Fetched (templates : list ITemplate)
| FetchRejected (e : RequestError)
| FetchPending.

(** The [while (hasMore)] loop; [hasMore] is [true] on entry, so the body runs
    at least once.  [fuel] bounds the number of requests, [sent] counts the
    requests made so far; the result carries the templates (or the error) and
    the number of requests sent. *)
Fixpoint fetch_loop (server : Server) (fuel sent : nat) (templates : list ITemplate)
    : Fetch * nat :=
  match fuel with
  | O => (FetchPending, sent)
  | S fuel' =>
      match server sent with
      | Rejected e => (FetchRejected e, S sent)
      | Page items total_count =>
          let templates' := templates ++ map to_template items in
          let hasMore := Z.of_nat (length templates') <? total_count in
          if hasMore then fetch_loop server fuel' (S sent) templates'
          else (Fetched templates', S sent)
      end
  end.

Definition fetchTemplateRepositories (server : Server) (fuel : nat) : Fetch * nat :=
  fetch_loop server fuel 0%nat [].

(** *** The client between the loop and the remote service

    [octokit] is built by [new Octokit()] of the [octokit] package, whose
    retry plug-in sends a failed request again before the call rejects.  The
    remote service is a [Service]: its answer to the HTTP request number [n]
    (from 0).  A [Client] says which failures are sent again and how many
    times. *)
Definition Service := nat -> Response.

Record Client := {
  retries : nat;
  retryable : RequestError -> bool
}.

(** One call of [octokit.request] that starts with the HTTP request number
    [attempt] and may still send [left] more: its outcome and the number of
    the next HTTP request. *)
Fixpoint settle (client : Client) (service : Service) (left attempt : nat)
    : Response * nat :=
  match service attempt with
  | Page items total_count => (Page items total_count, S attempt)
  | Rejected e =>
      match left with
      | S left' =>
          if retryable client e then settle client service left' (S attempt)
          else (Rejected e, S attempt)
      | O => (Rejected e, S attempt)
      end
  end.

(** The number of the HTTP request with which the call number [n] starts. *)
Fixpoint first_attempt (client : Client) (service : Service) (n : nat) : nat :=
  match n with
  | O => O
  | S n' => snd (settle client service (retries client) (first_attempt client service n'))
  end.

(** What the loop sees of a service through a client. *)
Definition through (client : Client) (service : Service) : Server :=
  fun n => fst (settle client service (retries client) (first_attempt client service n)).

(** The defaults of the retry plug-in: three more requests, for a failure
    with a status from 400 on that is not in its list of statuses never
    sent again (401 and 403 are in that list in every release of the
    plug-in, 500 in none); a failure of the transport reaches the plug-in
    with the status 500. *)
Definition do_not_retry : list Z := [400; 401; 403; 404; 410; 422; 451].

Definition octokit_client : Client :=
  {| retries := 3;
     retryable := fun e =>
       match e with
       | HttpError status => (400 <=? status) && negb (one_of do_not_retry status)
       | TransportError => true
       end |}.

(** The templates of the first pages of a server, in order. *)
Definition collected (pages : list (list Repo * Z)) : list ITemplate :=
  concat (map (fun pg => map to_template (fst pg)) pages).

(** Every page of [pages] is the server's answer at its position, and after
    each of them the accumulated templates are fewer than its total. *)
Definition more_after (server : Server) (pages : list (list Repo * Z)) : Prop :=
  forall i items total,
    pages !! i = Some (items, total) ->
    server i = Page items total
    /\ Z.of_nat (length (collected (take (S i) pages))) < total.

(** A server with two pages of one repository each, and one that rejects
    the second request. *)
Definition sample_repo (n : string) : Repo :=
  {| repo_name := lit n;
     repo_full_name := lit "congnv0330/" ++ lit n;
     repo_description := None;
     repo_clone_url := lit "https://github.com/congnv0330/" ++ lit n ++ lit ".git" |}.

Definition two_page_server : Server :=
  fun n =>
    match n with
    | O => Page [sample_repo "t1"] 2
    | _ => Page [sample_repo "t2"] 2
    end.

Definition failing_server : Server :=
  fun n =>
    match n with
    | O => Page [sample_repo "t1"] 2
    | _ => Rejected (HttpError 403)
    end.

(** ** Paths and the file system *)

Fixpoint str_eqb (a b : list Z) : bool :=
  match a, b with
  | [], [] => true
  | x :: a', y :: b' => (x =? y) && str_eqb a' b'
  | _, _ => false
  end.

(** An absolute, normalized path: its segments from the root. *)
Abbreviation path := (list (list Z)) (only parsing).

Inductive node :=
| File (content : list Z)
| Dir.

(** The pieces of [s] between occurrences of [sep]. *)
Fixpoint split_on (sep : Z) (s : list Z) : list (list Z) :=
  match s with
  | [] => [[]]
  | c :: t =>
      if c =? sep then [] :: split_on sep t
      else match split_on sep t with
           | seg :: segs => (c :: seg) :: segs
           | [] => [[c]]
           end
  end.

Definition enter (p : list (list Z)) (segment : list Z) : list (list Z) :=
  if str_eqb segment [] || str_eqb segment (lit ".") then p
  else if str_eqb segment (lit "..") then removelast p
  else p ++ [segment].

Definition walk (base : list (list Z)) (rel : list Z) : list (list Z) :=
  fold_left enter (split_on slash rel) base.

(** [path.join(base, rel)] for an absolute, normalized [base]. *)
Definition path_join (base : list (list Z)) (rel : list Z) : list (list Z) :=
  walk base rel.

(** [path.basename] of an absolute, normalized path. *)
Definition path_basename (p : list (list Z)) : list Z :=
  match last p with Some segment => segment | None => [] end.

Fixpoint is_prefix (p q : list (list Z)) : bool :=
  match p, q with
  | [], _ => true
  | a :: p', b :: q' => str_eqb a b && is_prefix p' q'
  | _ :: _, [] => false
  end.

(** The name of [q] inside the directory [p], when [q] is an entry of it. *)
Fixpoint entry_name (p q : list (list Z)) : option (list Z) :=
  match p, q with
  | [], [n] => Some n
  | a :: p', b :: q' => if str_eqb a b then entry_name p' q' else None
  | _, _ => None
  end.

Inductive FsErrorCode := ENOENT | ENOTDIR | EISDIR.

Definition fs_exists (fs : gmap (list (list Z)) node) (p : list (list Z)) : bool :=
  match fs !! p with Some _ => true | None => false end.

Definition fs_readdir (fs : gmap (list (list Z)) node) (p : list (list Z))
    : FsErrorCode + list (list Z) :=
  match fs !! p with
  | Some Dir => inr (omap (fun kv => entry_name p (fst kv)) (map_to_list fs))
  | Some (File _) => inl ENOTDIR
  | None => inl ENOENT
  end.

(** How the operating system reads a path given as text: from the root when
    it starts with a slash, from the working directory otherwise, one
    component after the other.  A component is entered from an existing
    directory only: [demo/x/..] leads nowhere when [demo/x] is missing,
    although [path.join] would make [demo] of it.  An empty component (a
    doubled slash) is passed over.  The entry the path ends at need not
    exist. *)
Definition os_enter (fs : gmap (list (list Z)) node)
    (at_ : FsErrorCode + list (list Z)) (segment : list Z)
    : FsErrorCode + list (list Z) :=
  match at_ with
  | inl code => inl code
  | inr p =>
      if str_eqb segment [] then inr p
      else
        match fs !! p with
        | Some Dir =>
            if str_eqb segment (lit ".") then inr p
            else if str_eqb segment (lit "..") then inr (removelast p)
            else inr (p ++ [segment])
        | Some (File _) => inl ENOTDIR
        | None => inl ENOENT
        end
  end.

Definition os_resolve (fs : gmap (list (list Z)) node) (cwd : list (list Z))
    (text : list Z) : FsErrorCode + list (list Z) :=
  fold_left (os_enter fs) (split_on slash text)
    (inr (if starts_with (Z.eqb slash) text then [] else cwd)).

(** [fs.existsSync(text)] for a path given as text. *)
Definition exists_at (fs : gmap (list (list Z)) node) (cwd : list (list Z))
    (text : list Z) : bool :=
  match os_resolve fs cwd text with
  | inr p => fs_exists fs p
  | inl _ => false
  end.

(** [rmSync(p, { recursive: true, force: true })]: [p] and everything below
    it disappear; nothing happens when [p] does not exist. *)
Definition fs_remove_tree (fs : gmap (list (list Z)) node) (p : list (list Z))
    : gmap (list (list Z)) node :=
  filter (fun kv => is_prefix p (fst kv) = false) fs.

(** [rmSync(p, { force: true })]: a file is removed, a missing path is
    ignored, a directory is refused. *)
Definition fs_remove_file (fs : gmap (list (list Z)) node) (p : list (list Z))
    : FsErrorCode + gmap (list (list Z)) node :=
  match fs !! p with
  | Some Dir => inl EISDIR
  | Some (File _) => inr (delete p fs)
  | None => inr fs
  end.

Definition fs_read_file (fs : gmap (list (list Z)) node) (p : list (list Z))
    : FsErrorCode + list Z :=
  match fs !! p with
  | Some (File content) => inr content
  | Some Dir => inl EISDIR
  | None => inl ENOENT
  end.

(** [writeFileSync(p, content)]: the directory of [p] must exist and [p]
    must not be a directory. *)
Definition fs_write_file (fs : gmap (list (list Z)) node) (p : list (list Z))
    (content : list Z) : FsErrorCode + gmap (list (list Z)) node :=
  match fs !! removelast p, fs !! p with
  | Some Dir, Some Dir => inl EISDIR
  | Some Dir, _ => inr (<[p := File content]> fs)
  | Some (File _), _ => inl ENOTDIR
  | None, _ => inl ENOENT
  end.

(** ** JSON

    A value as [JSON.parse] builds it.  An object is its list of own
    properties in enumeration order.  A number only travels from the parser
    to the serializer and is kept as the text the serializer prints for
    it. *)

#[warnings="-register-all"] Inductive json :=
| JNull
| JBool (b : bool)
| JNumber (text : list Z)
| JString (s : list Z)
| JArray (items : list json)
| JObject (props : list (list Z * json)).

Definition hex_digit (n : Z) : Z :=
  if n <? 10 then 48 + n else 87 + n.

(** [\uXXXX] with lower-case digits. *)
Definition unicode_escape (c : Z) : list Z :=
  lit "\u" ++ [hex_digit (Z.land (Z.shiftr c 12) 15); hex_digit (Z.land (Z.shiftr c 8) 15);
               hex_digit (Z.land (Z.shiftr c 4) 15); hex_digit (Z.land c 15)].

Definition is_high_surrogate (c : Z) : bool := between 0xD800 0xDBFF c.
Definition is_low_surrogate (c : Z) : bool := between 0xDC00 0xDFFF c.

(** The body of QuoteJSONString: the short escapes, [\u00XX] for the other
    control units, [\uDXXX] for a surrogate without its partner. *)
Fixpoint quote_units (s : list Z) : list Z :=
  match s with
  | [] => []
  | c :: t =>
      if c =? 8 then lit "\b" ++ quote_units t
      else if c =? 9 then lit "\t" ++ quote_units t
      else if c =? 10 then lit "\n" ++ quote_units t
      else if c =? 12 then lit "\f" ++ quote_units t
      else if c =? 13 then lit "\r" ++ quote_units t
      else if c =? 34 then [92; 34] ++ quote_units t
      else if c =? 92 then [92; 92] ++ quote_units t
      else if c <? 32 then unicode_escape c ++ quote_units t
      else if is_high_surrogate c then
        match t with
        | d :: t' =>
            if is_low_surrogate d then c :: d :: quote_units t'
            else unicode_escape c ++ quote_units t
        | [] => unicode_escape c
        end
      else if is_low_surrogate c then unicode_escape c ++ quote_units t
      else c :: quote_units t
  end.

Definition quote (s : list Z) : list Z := [34] ++ quote_units s ++ [34].

Fixpoint join_with (sep : list Z) (parts : list (list Z)) : list Z :=
  match parts with
  | [] => []
  | [x] => x
  | x :: rest => x ++ sep ++ join_with sep rest
  end.

Definition newline : Z := 10.

(** [JSON.stringify(v, null, 2)] at the indentation [indent]: members on
    lines of their own, two spaces deeper, [": "] after a key; an empty
    array or object is written closed. *)
Fixpoint stringify_at (indent : list Z) (v : json) : list Z :=
  let deeper := indent ++ lit "  " in
  match v with
  | JNull => lit "null"
  | JBool true => lit "true"
  | JBool false => lit "false"
  | JNumber text => text
  | JString s => quote s
  | JArray [] => lit "[]"
  | JArray items =>
      lit "[" ++ [newline]
        ++ join_with (lit "," ++ [newline])
             (map (fun x => deeper ++ stringify_at deeper x) items)
        ++ [newline] ++ indent ++ lit "]"
  | JObject [] => lit "{}"
  | JObject props =>
      lit "{" ++ [newline]
        ++ join_with (lit "," ++ [newline])
             (map (fun kv => deeper ++ quote (fst kv) ++ lit ": "
                               ++ stringify_at deeper (snd kv)) props)
        ++ [newline] ++ indent ++ lit "}"
  end.

Definition stringify (v : json) : list Z := stringify_at [] v.

Fixpoint get_prop (key : list Z) (props : list (list Z * json)) : option json :=
  match props with
  | [] => None
  | (k, v) :: rest => if str_eqb k key then Some v else get_prop key rest
  end.

(** Assignment to a property of an ordinary object: an existing property
    keeps its place, a new one comes last. *)
Fixpoint set_prop (key : list Z) (v : json) (props : list (list Z * json))
    : list (list Z * json) :=
  match props with
  | [] => [(key, v)]
  | (k, old) :: rest =>
      if str_eqb k key then (k, v) :: rest else (k, old) :: set_prop key v rest
  end.

(** [pkg.name = value] in module (strict) code.  On an array the property is
    set beside the elements and is not serialized; on [null] and on a
    primitive the assignment throws a [TypeError] ([None]). *)
Definition assign_name (pkg : json) (value : list Z) : option json :=
  match pkg with
  | JObject props => Some (JObject (set_prop (lit "name") (JString value) props))
  | JArray items => Some (JArray items)
  | _ => None
  end.

(** ** The world of a run *)

Inductive Answer (A : Type) :=
| Submit (a : A)
| Abort.
Arguments Submit {A} a.
Arguments Abort {A}.

(** What the user does at each prompt, should it be asked.

    - [projectName_states]: the [state.value] of every state event of the
      project-name prompt, in order (one per keystroke, and one when the
      prompt is submitted or aborted); [projectName_aborted]: the prompt was
      aborted rather than submitted.
    - [overwrite_answer]: the answer to the confirmation.
    - [packageName_attempts]: the texts submitted at the package-name prompt;
      an empty text stands for the prompt's initial value; the prompt asks
      again after a text that [validate] refuses, and the user aborts when
      the attempts are used up.
    - [template_answer]: the position of the cursor in the list of choices,
      from 0, when the selection is submitted. *)
Record User := {
  projectName_states : list (list Z);
  projectName_aborted : bool;
  overwrite_answer : Answer bool;
  packageName_attempts : list (list Z);
  template_answer : Answer nat
}.

Inductive ExecFailure := ExitCode (code : Z).

(** The value [minimist] gives to a flag that is not declared as a string:
    the text after the flag, a number when that text reads as one
    ([--template 123]), a boolean for a flag without a text or with the
    [--no-] prefix, an array for a flag given several times.  Of a number
    the program observes only whether it is zero. *)
Inductive ArgValue :=
| ArgString (s : list Z)
| ArgNumber (nonzero : bool)
| ArgBoolean (b : bool)
| ArgArray.

Record World := {
  argv_0 : option (list Z);            (* argv._[0] *)
  argv_template : option ArgValue;     (* argv.template *)
  argv_t : option ArgValue;            (* argv.t *)
  cwd : list (list Z);                 (* process.cwd() *)
  disk : gmap (list (list Z)) node;    (* the file system when the run starts *)
  server : Server;                     (* the outcomes of the calls of octokit.request *)
  user : User;
  (* the shell: what a command line run in [cwd] does to the file system *)
  shell : list Z -> list (list Z) -> gmap (list (list Z)) node
          -> option ExecFailure * gmap (list (list Z)) node;
  JSON_parse : list Z -> option json;  (* [None]: SyntaxError *)
  lower : lower_table
}.

Inductive Exn :=
| OperationCancelled      (* Error(red('✖') + ' Operation cancelled') *)
| TemplateNotAvailable    (* Error(red('✖') + ' Something error. Template not available now.') *)
| RequestFailed (e : RequestError)
| FsError (code : FsErrorCode)
| SyntaxError
| TypeError.

Inductive Question := QProjectName | QOverwrite | QPackageName | QTemplate.

Inductive Event :=
| Asked (q : Question)
| ConsoleLogMessage (e : Exn)               (* console.log(e.message) *)
| ConsoleLogCloning (root : list (list Z))  (* console.log(`\nClone project template in ${root}...\n`) *)
| ConsoleLogDone                            (* console.log(`Done.\n`) *)
| ConsoleErrorExn (e : Exn)                 (* console.error(e) *)
| ConsoleErrorExec (e : ExecFailure)        (* console.error(error) *)
| RmSync (p : list (list Z)) (recursive : bool)
| WriteFileSync (p : list (list Z)) (content : list Z)
| Exec (command : list Z).

(** The mutable state: the file system, what has been printed and done so
    far (latest last), and the variable [targetDir] of [init]. *)
Record State := {
  files : gmap (list (list Z)) node;
  trace : list Event;
  targetDir : list Z
}.

(** *** A monad of state and exceptions *)

Inductive Result (A : Type) :=
| Ok (a : A)
| Throw (e : Exn).
Arguments Ok {A} a.
Arguments Throw {A} e.

Definition M (A : Type) : Type := State -> Result A * State.

Definition ret {A} (a : A) : M A := fun s => (Ok a, s).

Definition bind {A B} (m : M A) (k : A -> M B) : M B :=
  fun s =>
    match m s with
    | (Ok a, s') => k a s'
    | (Throw e, s') => (Throw e, s')
    end.

Definition throw {A} (e : Exn) : M A := fun s => (Throw e, s).

Definition try_catch {A} (m : M A) (handler : Exn -> M A) : M A :=
  fun s =>
    match m s with
    | (Ok a, s') => (Ok a, s')
    | (Throw e, s') => handler e s'
    end.

Declare Scope js_scope.
Delimit Scope js_scope with js.
Notation "x <- m ;; k" := (bind m (fun x => k))
  (at level 100, m at next level, right associativity) : js_scope.
Notation "m ;; k" := (bind m (fun _ => k))
  (at level 100, right associativity) : js_scope.
Local Open Scope js_scope.

Definition emit (ev : Event) : M unit :=
  fun s => (Ok tt, {| files := files s; trace := trace s ++ [ev]; targetDir := targetDir s |}).

Definition get_targetDir : M (list Z) := fun s => (Ok (targetDir s), s).

Definition set_targetDir (d : list Z) : M unit :=
  fun s => (Ok tt, {| files := files s; trace := trace s; targetDir := d |}).

Definition get_files : M (gmap (list (list Z)) node) := fun s => (Ok (files s), s).

Definition set_files (fs : gmap (list (list Z)) node) : M unit :=
  fun s => (Ok tt, {| files := fs; trace := trace s; targetDir := targetDir s |}).

Definition when (b : bool) (m : M unit) : M unit := if b then m else ret tt.

Fixpoint for_each {A} (xs : list A) (body : A -> M unit) : M unit :=
  match xs with
  | [] => ret tt
  | x :: rest => body x ;; for_each rest body
  end.

Definition lift_fs {A} (r : FsErrorCode + A) : M A :=
  match r with
  | inl code => throw (FsError code)
  | inr a => ret a
  end.

(** *** The [fs] calls of the source

    A call on a path that [path.join] has built addresses the entry of that
    normalized path; a call on [targetDir] itself goes through the
    operating system's reading of the text. *)

Definition existsSync (p : list (list Z)) : M bool :=
  fs <- get_files ;; ret (fs_exists fs p).

(** [fs.existsSync(text)] with the path as the source has it, a text. *)
Definition existsSync_text (cwd : list (list Z)) (text : list Z) : M bool :=
  fs <- get_files ;; ret (exists_at fs cwd text).

Definition readdirSync (p : list (list Z)) : M (list (list Z)) :=
  fs <- get_files ;; lift_fs (fs_readdir fs p).

Definition rmSync_recursive_force (p : list (list Z)) : M unit :=
  emit (RmSync p true) ;;
  fs <- get_files ;; set_files (fs_remove_tree fs p).

Definition rmSync_force (p : list (list Z)) : M unit :=
  emit (RmSync p false) ;;
  fs <- get_files ;; fs' <- lift_fs (fs_remove_file fs p) ;; set_files fs'.

Definition readFileSync (p : list (list Z)) : M (list Z) :=
  fs <- get_files ;; lift_fs (fs_read_file fs p).

Definition writeFileSync (p : list (list Z)) (content : list Z) : M unit :=
  emit (WriteFileSync p content) ;;
  fs <- get_files ;; fs' <- lift_fs (fs_write_file fs p content) ;; set_files fs'.

(** ** [init] *)

Definition defaultTargetDir : list Z := lit "my-project".

(** [!!a] on the value of a flag: [undefined], the empty string, zero and
    [false] are falsy. *)
Definition truthy (a : option ArgValue) : bool :=
  match a with
  | Some (ArgString (_ :: _)) => true
  | Some (ArgNumber nonzero) => nonzero
  | Some (ArgBoolean b) => b
  | Some ArgArray => true
  | _ => false
  end.

(** [a || b] on a string that may be [undefined]. *)
Definition or_else (a : option (list Z)) (b : list Z) : list Z :=
  match a with Some (c :: r) => c :: r | _ => b end.

(** [a || b] on the values of two flags. *)
Definition or_undefined (a b : option ArgValue) : option ArgValue :=
  if truthy a then a else b.

(** [template.name === argTemplate]: strict equality with a string holds of
    an equal string only. *)
Definition named (argTemplate : option ArgValue) (template : ITemplate) : bool :=
  match argTemplate with
  | Some (ArgString n) => str_eqb (name template) n
  | _ => false
  end.

(** [isEmpty] on a given file system; [readdirSync] may throw. *)
Definition isEmpty_on (fs : gmap (list (list Z)) node) (p : list (list Z))
    : FsErrorCode + bool :=
  match fs_readdir fs p with
  | inl code => inl code
  | inr entries =>
      inr ((length entries =? 0)%nat
           || ((length entries =? 1)%nat
               && match head entries with
                  | Some f => str_eqb f (lit ".git")
                  | None => false
                  end))
  end.

(** [isEmpty(text)] for a path given as text, read as the operating system
    reads it. *)
Definition isEmpty_at (fs : gmap (list (list Z)) node) (cwd : list (list Z))
    (text : list Z) : FsErrorCode + bool :=
  match os_resolve fs cwd text with
  | inr p => isEmpty_on fs p
  | inl code => inl code
  end.

Definition isEmpty (cwd : list (list Z)) (text : list Z) : M bool :=
  fs <- get_files ;; lift_fs (isEmpty_at fs cwd text).

(** [targetDir === '.' ? path.basename(path.resolve()) : targetDir] *)
Definition projectName_of (w : World) (targetDir : list Z) : list Z :=
  if str_eqb targetDir (lit ".") then path_basename (cwd w) else targetDir.

Definition getProjectName (w : World) : M (list Z) :=
  targetDir <- get_targetDir ;; ret (projectName_of w targetDir).

(** The [onState] handler of the project-name prompt. *)
Definition onState (value : list Z) : M unit :=
  set_targetDir (or_else (formatTargetDir (Some value)) defaultTargetDir).

(** [targetDir] after the state events [states], starting from [start]. *)
Definition typed_targetDir (start : list Z) (states : list (list Z)) : list Z :=
  fold_left (fun _ value => or_else (formatTargetDir (Some value)) defaultTargetDir)
            states start.

(** A prompt that is asked: the answer, or [onCancel] when it is aborted. *)
Definition ask {A} (q : Question) (a : Answer A) : M A :=
  emit (Asked q) ;;
  match a with
  | Submit v => ret v
  | Abort => throw OperationCancelled
  end.

(** A text prompt with [initial] and [validate]: the first submitted text
    (the initial value for an empty one) that [validate] accepts. *)
Fixpoint first_accepted (validate : list Z -> bool) (initial : list Z)
    (attempts : list (list Z)) : Answer (list Z) :=
  match attempts with
  | [] => Abort
  | text :: rest =>
      let value := or_else (Some text) initial in
      if validate value then Submit value
      else first_accepted validate initial rest
  end.

(** [targetDir] once the project-name prompt is over: the value [init] gives
    it first, then every state event of the prompt. *)
Definition resolved_targetDir (w : World) : list Z :=
  typed_targetDir (or_else (formatTargetDir (argv_0 w)) defaultTargetDir)
    (projectName_states (user w)).

Record Choice := {
  title : list Z;
  choice_description : list Z;
  value : ITemplate
}.

Definition to_choice (template : ITemplate) : Choice :=
  {| title := name template;
     choice_description :=
       match description template with Some d => d | None => lit "..." end;
     value := template |}.

(** A select prompt.  On an empty list of choices the prompt cannot be
    built: it throws before anything is shown and [prompts] hands the
    failure to [onCancel].  Otherwise the answer is the value of the choice
    under the cursor, which does not leave the list: a position beyond the
    last choice stands for the last choice. *)
Definition select (q : Question) (choices : list Choice) (a : Answer nat)
    : M (option ITemplate) :=
  match choices with
  | [] => throw OperationCancelled
  | first :: others =>
      cursor <- ask q a ;;
      ret (Some (value (nth (Nat.min cursor (length others)) choices first)))
  end.

(** The answers object; a question that is skipped leaves its key
    [undefined]. *)
Record Answers := {
  overwrite : option bool;
  packageName : option (list Z);
  template : option ITemplate
}.

(** The call of [prompts]: the five questions in order. *)
Definition flow (w : World) (repoTemplates : list ITemplate) (isValidTemplate : bool)
    : M Answers :=
  (* projectName: type 'text' *)
  emit (Asked QProjectName) ;;
  for_each (projectName_states (user w)) onState ;;
  when (projectName_aborted (user w)) (throw OperationCancelled) ;;
  (* overwrite: !fs.existsSync(targetDir) || isEmpty(targetDir) ? null : 'confirm' *)
  targetDir <- get_targetDir ;;
  present <- existsSync_text (cwd w) targetDir ;;
  skip <- (if negb present then ret true
           else isEmpty (cwd w) targetDir) ;;
  overwrite <- (if skip then ret None
                else b <- ask QOverwrite (overwrite_answer (user w)) ;; ret (Some b)) ;;
  (* overwriteChecker *)
  when (match overwrite with Some false => true | _ => false end)
       (throw OperationCancelled) ;;
  (* packageName: isValidPackageName(getProjectName()) ? null : 'text' *)
  projectName <- getProjectName w ;;
  packageName <- (if isValidPackageName projectName then ret None
                  else
                    v <- ask QPackageName
                           (first_accepted isValidPackageName
                              (toValidPackageName (lower w) projectName)
                              (packageName_attempts (user w))) ;;
                    ret (Some v)) ;;
  (* template: isValidTemplate ? null : 'select' *)
  template <- (if isValidTemplate then ret None
               else select QTemplate (map to_choice repoTemplates)
                      (template_answer (user w))) ;;
  ret {| overwrite := overwrite; packageName := packageName; template := template |}.

(** What [childProcess.exec] has been asked to run, and what its callback
    closes over. *)
Record Pending := {
  pending_command : list Z;
  pending_root : list (list Z);
  pending_packageName : option (list Z)
}.

(** [init] after the catalog has been fetched, up to the call of [exec]. *)
Definition init (w : World) (repoTemplates : list ITemplate) : M (option Pending) :=
  let argTargetDir := formatTargetDir (argv_0 w) in
  let argTemplate := or_undefined (argv_template w) (argv_t w) in
  let isValidTemplate := truthy argTemplate && existsb (named argTemplate) repoTemplates in
  set_targetDir (or_else argTargetDir defaultTargetDir) ;;
  answered <- try_catch
                (result <- flow w repoTemplates isValidTemplate ;; ret (Some result))
                (fun e => emit (ConsoleLogMessage e) ;; ret None) ;;
  match answered with
  | None => ret None
  | Some result =>
      targetDir <- get_targetDir ;;
      let root := path_join (cwd w) targetDir in
      present <- existsSync root ;;
      when ((negb (match overwrite result with Some b => b | None => false end)
             || match overwrite result with Some true => true | _ => false end)
            && present)
           (rmSync_recursive_force root) ;;
      let selectedTemplete :=
        match template result with
        | Some t => Some t
        | None => find (named argTemplate) repoTemplates
        end in
      match selectedTemplete with
      | None => throw TemplateNotAvailable
      | Some selected =>
          emit (ConsoleLogCloning root) ;;
          let command := lit "git clone " ++ clone_url selected ++ lit " " ++ targetDir in
          emit (Exec command) ;;
          ret (Some {| pending_command := command;
                       pending_root := root;
                       pending_packageName := packageName result |})
      end
  end.

(** The local helper [write] of [init]. *)
Definition write (root : list (list Z)) (file content : list Z) : M unit :=
  let targetPath := path_join root file in
  writeFileSync targetPath content.

(** The callback of [exec]. *)
Definition clone_callback (w : World) (root : list (list Z))
    (packageName : option (list Z)) (error : option ExecFailure) : M unit :=
  match error with
  | Some e => emit (ConsoleErrorExec e)
  | None =>
      let pkgDir := path_join root (lit "package.json") in
      has_pkg <- existsSync pkgDir ;;
      when has_pkg
        (text <- readFileSync pkgDir ;;
         pkg <- match JSON_parse w text with
                | Some v => ret v
                | None => throw SyntaxError
                end ;;
         projectName <- getProjectName w ;;
         pkg' <- match assign_name pkg (or_else packageName projectName) with
                 | Some v => ret v
                 | None => throw TypeError
                 end ;;
         write root (lit "package.json") (stringify pkg' ++ [newline])) ;;
      rmSync_recursive_force (path_join root (lit ".git")) ;;
      rmSync_force (path_join root (lit "package-lock.json")) ;;
      rmSync_force (path_join root (lit "yarn.lock")) ;;
      emit ConsoleLogDone
  end.

(** The child process runs, then its callback. *)
Definition child (w : World) (job : Pending) : M unit :=
  fs <- get_files ;;
  let '(error, fs') := shell w (pending_command job) (cwd w) fs in
  set_files fs' ;;
  clone_callback w (pending_root job) (pending_packageName job) error.

Inductive Outcome :=
| Finished
| Uncaught (e : Exn)
| Hangs.

Record Run := {
  outcome : Outcome;
  final : State
}.

(** The whole program: [init().catch((e) => console.error(e))].  An
    exception of the callback is outside the promise of [init] and is not
    caught. *)
Definition main (fuel : nat) (w : World) : Run :=
  let s0 := {| files := disk w; trace := []; targetDir := [] |} in
  match fst (fetchTemplateRepositories (server w) fuel) with
  | FetchPending => {| outcome := Hangs; final := s0 |}
  | FetchRejected e =>
      {| outcome := Finished; final := snd (emit (ConsoleErrorExn (RequestFailed e)) s0) |}
  | Fetched repoTemplates =>
      match init w repoTemplates s0 with
      | (Throw e, s) => {| outcome := Finished; final := snd (emit (ConsoleErrorExn e) s) |}
      | (Ok None, s) => {| outcome := Finished; final := s |}
      | (Ok (Some job), s) =>
          match child w job s with
          | (Ok _, s') => {| outcome := Finished; final := s' |}
          | (Throw e, s') => {| outcome := Uncaught e; final := s' |}
          end
      end
  end.

(** *** Reading a trace *)

Definition is_question (ev : Event) : bool :=
  match ev with Asked _ => true | _ => false end.

(** The events that change the file system or start the clone. *)
Definition is_mutation (ev : Event) : bool :=
  match ev with
  | RmSync _ _ | WriteFileSync _ _ | Exec _ => true
  | _ => false
  end.

Definition mutations (t : list Event) : list Event := List.filter is_mutation t.

(** A computation that leaves the file system and [targetDir] alone and
    only asks questions. *)
Definition quiet {A} (m : M A) : Prop :=
  forall s,
    files (snd (m s)) = files s
    /\ targetDir (snd (m s)) = targetDir s
    /\ exists asked,
         trace (snd (m s)) = trace s ++ asked
         /\ forallb is_question asked = true.

(** A computation that leaves the entry at [target] as it is. *)
Definition keeps {A} (target : list (list Z)) (m : M A) : Prop :=
  forall s, files (snd (m s)) !! target = files s !! target.

(** The properties of an object other than [name], in order. *)
Definition other_props (props : list (list Z * json)) : list (list Z * json) :=
  List.filter (fun kv => negb (str_eqb (fst kv) (lit "name"))) props.

(** ** Sample worlds *)

Definition idle_shell (command : list Z) (cwd : list (list Z))
    (fs : gmap (list (list Z)) node) : option ExecFailure * gmap (list (list Z)) node :=
  (None, fs).

(** The working directory [/work], holding a project [demo] with one file. *)
Definition demo_disk : gmap (list (list Z)) node :=
  <[ [lit "work"; lit "demo"; lit "README.md"] := File (lit "# demo") ]>
  (<[ [lit "work"; lit "demo"] := Dir ]>
  (<[ [lit "work"] := Dir ]>
  (<[ [] := Dir ]> ∅))).

Definition one_page_server : Server :=
  fun _ => Page [sample_repo "t1"] 1.

Definition empty_server : Server :=
  fun _ => Page [] 0.

(** [create-template demo], the user declines to overwrite [demo]. *)
Definition decline_world : World :=
  {| argv_0 := Some (lit "demo");
     argv_template := None;
     argv_t := None;
     cwd := [lit "work"];
     disk := demo_disk;
     server := one_page_server;
     user := {| projectName_states := [lit "demo"];
                projectName_aborted := false;
                overwrite_answer := Submit false;
                packageName_attempts := [];
                template_answer := Submit 0%nat |};
     shell := idle_shell;
     JSON_parse := fun _ => None;
     lower := keep_table |}.

(** [create-template foo], the user enters [bar] at the project-name
    prompt. *)
Definition foo_bar_world : World :=
  {| argv_0 := Some (lit "foo");
     argv_template := Some (ArgString (lit "t1"));
     argv_t := None;
     cwd := [lit "work"];
     disk := demo_disk;
     server := one_page_server;
     user := {| projectName_states := [lit "b"; lit "ba"; lit "bar"; lit "bar"];
                projectName_aborted := false;
                overwrite_answer := Abort;
                packageName_attempts := [];
                template_answer := Abort |};
     shell := idle_shell;
     JSON_parse := fun _ => None;
     lower := keep_table |}.

(** [create-template demo --template nope] against an empty catalog; the
    user agrees to overwrite [demo], and the selection has nothing to
    offer. *)
Definition no_template_world : World :=
  {| argv_0 := Some (lit "demo");
     argv_template := Some (ArgString (lit "nope"));
     argv_t := None;
     cwd := [lit "work"];
     disk := demo_disk;
     server := empty_server;
     user := {| projectName_states := [lit "demo"];
                projectName_aborted := false;
                overwrite_answer := Submit true;
                packageName_attempts := [];
                template_answer := Submit 0%nat |};
     shell := idle_shell;
     JSON_parse := fun _ => None;
     lower := keep_table |}.

(** The user enters [Demo-App] as the project name: nothing is in the way, the package name
    offered by the prompt is accepted, the first template is chosen, and the
    clone brings a package descriptor, git metadata and a lock file. *)
Definition quoted (s : string) : list Z := [34] ++ lit s ++ [34].

Definition template_package_json : list Z :=
  lit "{ " ++ quoted "name" ++ lit ": " ++ quoted "template-default" ++ lit ", "
  ++ quoted "version" ++ lit ": " ++ quoted "1.0.0" ++ lit " }".

Definition template_package : json :=
  JObject [(lit "name", JString (lit "template-default"));
           (lit "version", JString (lit "1.0.0"))].

Definition cloning_shell (command : list Z) (cwd : list (list Z))
    (fs : gmap (list (list Z)) node) : option ExecFailure * gmap (list (list Z)) node :=
  (None,
   <[ cwd ++ [lit "Demo-App"; lit "yarn.lock"] := File (lit "# yarn lockfile v1") ]>
   (<[ cwd ++ [lit "Demo-App"; lit ".git"; lit "HEAD"] := File (lit "ref: refs/heads/main") ]>
   (<[ cwd ++ [lit "Demo-App"; lit ".git"] := Dir ]>
   (<[ cwd ++ [lit "Demo-App"; lit "package.json"] := File template_package_json ]>
   (<[ cwd ++ [lit "Demo-App"] := Dir ]> fs))))).

Definition scaffold_world : World :=
  {| argv_0 := None;
     argv_template := None;
     argv_t := None;
     cwd := [lit "work"];
     disk := demo_disk;
     server := one_page_server;
     user := {| projectName_states := [lit "Demo-App"];
                projectName_aborted := false;
                overwrite_answer := Abort;
                packageName_attempts := [[]];
                template_answer := Submit 0%nat |};
     shell := cloning_shell;
     JSON_parse := fun text =>
                     if str_eqb text template_package_json
                     then Some template_package else None;
     lower := keep_table |}.

(** The state in which the callback of the clone starts in that world. *)
Definition cloned_state : State :=
  {| files := snd (cloning_shell [] [lit "work"] demo_disk);
     trace := [];
     targetDir := lit "Demo-App" |}.

Definition renamed_package_json : list Z :=
  lit "{" ++ [newline]
  ++ lit "  " ++ quoted "name" ++ lit ": " ++ quoted "demo-app" ++ lit "," ++ [newline]
  ++ lit "  " ++ quoted "version" ++ lit ": " ++ quoted "1.0.0" ++ [newline]
  ++ lit "}" ++ [newline].

(** ** Tactics *)

(** Turns a boolean fact about code units into inequalities for [lia]. *)
Ltac bool_to_prop H :=
  repeat first
    [ rewrite orb_true_iff in H | rewrite andb_true_iff in H
    | rewrite Z.eqb_eq in H | rewrite Z.leb_le in H | rewrite Z.ltb_lt in H ].

(** ** Further observations *)

(** The units that can occur in a package name: [[a-z0-9\-*._~@/]]. *)
Definition package_name_unit (c : Z) : bool :=
  scope_tail c || (c =? 64) || (c =? slash).

(** The templates of the answer number [i] of a server, and those of its
    first [n] answers, in order. *)
Definition page_templates (server : Server) (i : nat) : list ITemplate :=
  match server i with
  | Page items _ => map to_template items
  | Rejected _ => []
  end.

Definition received (server : Server) (n : nat) : list ITemplate :=
  flat_map (page_templates server) (seq 0 n).

(** [create-template demo/README.md]: the target is an existing file. *)
Definition file_in_the_way_world : World :=
  {| argv_0 := Some (lit "demo/README.md");
     argv_template := None;
     argv_t := None;
     cwd := [lit "work"];
     disk := demo_disk;
     server := one_page_server;
     user := {| projectName_states := [lit "demo/README.md"];
                projectName_aborted := false;
                overwrite_answer := Submit true;
                packageName_attempts := [];
                template_answer := Submit 0%nat |};
     shell := idle_shell;
     JSON_parse := fun _ => None;
     lower := keep_table |}.

(** A directory name as [init] keeps it: not empty, no whitespace in front,
    no slash at the end. *)
Definition tidy_dir (d : list Z) : bool :=
  negb (str_eqb d [])
  && negb (starts_with is_space d)
  && negb (ends_with (Z.eqb slash) d).

(** ** Further observations and sample worlds *)

(** The report of the missing template by the handler of [init()]. *)
Definition reports_missing_template (ev : Event) : bool :=
  match ev with
  | ConsoleErrorExn TemplateNotAvailable => true
  | _ => false
  end.

(** The report of an exception by the handler of [init()]. *)
Definition reports_rejection (ev : Event) : bool :=
  match ev with
  | ConsoleErrorExn _ => true
  | _ => false
  end.

(** A computation that adds to the trace only events of a kind. *)
Definition emits_only (P : Event -> bool) {A} (m : M A) : Prop :=
  forall s, exists evs,
    trace (snd (m s)) = trace s ++ evs /\ forallb P evs = true.

(** A computation whose exceptions are cancellations or errors of the file
    system. *)
Definition throws_softly {A} (m : M A) : Prop :=
  forall s e s', m s = (Throw e, s') ->
    e = OperationCancelled \/ exists code, e = FsError code.

(** A service that cannot be reached at first, then fails with a server
    error, and then answers. *)
Definition flaky_service : Service :=
  fun n =>
    match n with
    | O => Rejected TransportError
    | S O => Rejected (HttpError 500)
    | _ => Page [sample_repo "t1"] 1
    end.

(** A service that refuses every request. *)
Definition forbidding_service : Service :=
  fun _ => Rejected (HttpError 401).

(** The catalog cannot be fetched. *)
Definition down_world : World :=
  {| argv_0 := None;
     argv_template := None;
     argv_t := None;
     cwd := [lit "work"];
     disk := demo_disk;
     server := through octokit_client forbidding_service;
     user := {| projectName_states := [];
                projectName_aborted := false;
                overwrite_answer := Abort;
                packageName_attempts := [];
                template_answer := Abort |};
     shell := idle_shell;
     JSON_parse := fun _ => None;
     lower := keep_table |}.

(** A new project [fresh]; the template question is aborted. *)
Definition abort_template_world : World :=
  {| argv_0 := None;
     argv_template := Some (ArgNumber true);
     argv_t := None;
     cwd := [lit "work"];
     disk := demo_disk;
     server := one_page_server;
     user := {| projectName_states := [lit "fresh"];
                projectName_aborted := false;
                overwrite_answer := Abort;
                packageName_attempts := [];
                template_answer := Abort |};
     shell := idle_shell;
     JSON_parse := fun _ => None;
     lower := keep_table |}.

(** The project [demo] exists; the user agrees to overwrite it and takes
    the first template. *)
Definition consent_world : World :=
  {| argv_0 := None;
     argv_template := None;
     argv_t := None;
     cwd := [lit "work"];
     disk := demo_disk;
     server := one_page_server;
     user := {| projectName_states := [lit "demo"];
                projectName_aborted := false;
                overwrite_answer := Submit true;
                packageName_attempts := [];
                template_answer := Submit 0%nat |};
     shell := idle_shell;
     JSON_parse := fun _ => None;
     lower := keep_table |}.

(** The user types [demo/x/..] where [demo] exists and [demo/x] does not,
    and takes the first template. *)
Definition detour_world : World :=
  {| argv_0 := None;
     argv_template := None;
     argv_t := None;
     cwd := [lit "work"];
     disk := demo_disk;
     server := one_page_server;
     user := {| projectName_states := [lit "demo/x/.."];
                projectName_aborted := false;
                overwrite_answer := Abort;
                packageName_attempts := [[]];
                template_answer := Submit 0%nat |};
     shell := idle_shell;
     JSON_parse := fun _ => None;
     lower := keep_table |}.

(** * Proofs *)

(** ** Character classes *)

Lemma name_head_range c :
  name_head c = true ->
  97 <= c <= 122 \/ 48 <= c <= 57 \/ c = 45 \/ c = 126.
Proof.
  unfold name_head, lower_or_digit, between, one_of; simpl.
  intros H. bool_to_prop H. lia.
Qed.

Lemma accepted_name_head c : accepted c = name_head c.
Proof.
  unfold accepted, name_head, lower_or_digit, one_of; simpl.
  rewrite (Z.eqb_sym c 45), (Z.eqb_sym c 126).
  destruct (between 97 122 c), (between 48 57 c), (45 =? c), (126 =? c); reflexivity.
Qed.

Lemma name_head_not_space c : name_head c = true -> is_space c = false.
Proof.
  intros H. apply name_head_range in H.
  apply not_true_is_false. intros Hs.
  unfold is_space, one_of, between in Hs; simpl in Hs.
  bool_to_prop Hs. lia.
Qed.

Lemma name_head_not_dot c : name_head c = true -> dot_or_underscore c = false.
Proof.
  intros H. apply name_head_range in H.
  apply not_true_is_false. intros Hs.
  unfold dot_or_underscore, one_of in Hs; simpl in Hs.
  bool_to_prop Hs. lia.
Qed.

Lemma name_head_lower c :
  name_head c = true -> (c <? 128) = true /\ ascii_lower c = c.
Proof.
  intros H. apply name_head_range in H. split.
  - apply Z.ltb_lt. lia.
  - unfold ascii_lower, between.
    destruct (Z.leb_spec 65 c), (Z.leb_spec c 90); simpl; lia.
Qed.

Lemma name_head_tail c : name_head c = true -> name_tail c = true.
Proof.
  unfold name_head, name_tail, one_of; simpl.
  destruct (lower_or_digit c), (c =? 45), (c =? 126), (c =? 46), (c =? 95);
    simpl; congruence.
Qed.

(** ** Prefixes and suffixes dropped by a class *)

Lemma drop_while_head p s c :
  head (drop_while p s) = Some c -> p c = false.
Proof.
  induction s as [|a s IH]; simpl; [discriminate|].
  destruct (p a) eqn:Ha; [exact IH|].
  simpl. intros [= <-]. exact Ha.
Qed.

Lemma drop_while_id p s : forallb (fun c => negb (p c)) s = true -> drop_while p s = s.
Proof.
  destruct s as [|a s]; simpl; [reflexivity|].
  destruct (p a); simpl; [discriminate | reflexivity].
Qed.

(** What [drop_while_end] removes is a suffix of units of the class. *)
Lemma drop_while_end_split p s :
  exists tl, s = drop_while_end p s ++ tl /\ forallb p tl = true.
Proof.
  induction s as [|a s (tl & Hs & Htl)]; simpl.
  - exists []. auto.
  - destruct (drop_while_end p s) as [|b r] eqn:E.
    + simpl in Hs. subst tl. destruct (p a) eqn:Ha.
      * exists (a :: s). simpl. rewrite Ha, Htl. auto.
      * exists s. auto.
    + exists tl. split; [|exact Htl]. simpl. f_equal. exact Hs.
Qed.

Lemma drop_while_end_last p s c :
  last (drop_while_end p s) = Some c -> p c = false.
Proof.
  induction s as [|a s IH]; simpl; [discriminate|].
  destruct (drop_while_end p s) as [|b r] eqn:E.
  - destruct (p a) eqn:Ha; simpl; [discriminate|]. intros [= <-]. exact Ha.
  - intros H. apply IH. rewrite <- H. reflexivity.
Qed.

Lemma drop_while_end_id p s :
  forallb (fun c => negb (p c)) s = true -> drop_while_end p s = s.
Proof.
  induction s as [|a s IH]; simpl; [reflexivity|].
  intros H. apply andb_true_iff in H as [Ha Hs].
  rewrite (IH Hs). destruct s; [|reflexivity].
  destruct (p a); [discriminate | reflexivity].
Qed.

Lemma drop_while_end_head p s c :
  head (drop_while_end p s) = Some c -> head s = Some c.
Proof.
  destruct (drop_while_end_split p s) as (tl & Hs & _).
  intros H. rewrite Hs. destruct (drop_while_end p s); [discriminate|exact H].
Qed.

Lemma replace_final_run_drop p s :
  replace_final_run p [] s = drop_while_end p s.
Proof.
  unfold replace_final_run.
  destruct (Nat.ltb_spec (length (drop_while_end p s)) (length s)) as [Hl|Hl].
  - apply app_nil_r.
  - destruct (drop_while_end_split p s) as (tl & Hs & _).
    assert (Hlen : length s = (length (drop_while_end p s) + length tl)%nat)
      by (rewrite Hs at 1; apply length_app).
    destruct tl; [|simpl in Hlen; lia].
    rewrite app_nil_r in Hs. congruence.
Qed.

Lemma trim_head s c : head (trim s) = Some c -> is_space c = false.
Proof.
  unfold trim. intros H. apply drop_while_end_head in H.
  eapply drop_while_head; eauto.
Qed.

Lemma trim_last s c : last (trim s) = Some c -> is_space c = false.
Proof. apply drop_while_end_last. Qed.

Lemma trim_id s : forallb (fun c => negb (is_space c)) s = true -> trim s = s.
Proof.
  intros H. unfold trim. rewrite (drop_while_id _ _ H). apply drop_while_end_id, H.
Qed.

(** ** [formatTargetDir] *)

Lemma ends_with_app_class p s tl :
  forallb p tl = true -> tl <> [] -> ends_with p (s ++ tl) = true.
Proof.
  intros Hall Hne. unfold ends_with.
  destruct (exists_last Hne) as (front & c & ->).
  rewrite app_assoc, last_snoc.
  rewrite forallb_app in Hall. simpl in Hall.
  apply andb_true_iff in Hall as [_ Hc].
  apply andb_true_iff in Hc as [Hc _]. exact Hc.
Qed.

(** C3, as the code has it: the input is trimmed first and the slashes that
    end the trimmed string are removed afterwards.  The result never starts
    with whitespace and never ends with a slash; it ends with whitespace only
    when that whitespace stood before the removed slashes.  ["foo/ "] gives
    ["foo"] and [undefined] gives [undefined]. *)
Theorem formatTargetDir_trim_then_strip (s : list Z) :
  exists r,
    formatTargetDir (Some s) = Some r
    /\ r = drop_while_end (Z.eqb slash) (trim s)
    /\ starts_with is_space r = false
    /\ ends_with (Z.eqb slash) r = false
    /\ (ends_with is_space r = false \/ ends_with (Z.eqb slash) (trim s) = true)
    /\ formatTargetDir (Some (lit "foo/ ")) = Some (lit "foo")
    /\ formatTargetDir None = None.
Proof.
  exists (drop_while_end (Z.eqb slash) (trim s)).
  split; [simpl; f_equal; apply replace_final_run_drop|].
  split; [reflexivity|].
  split; [|split; [|split; [|split; reflexivity]]].
  - unfold starts_with.
    destruct (head (drop_while_end (Z.eqb slash) (trim s))) as [c|] eqn:E; [|reflexivity].
    apply drop_while_end_head in E. eapply trim_head; eauto.
  - unfold ends_with.
    destruct (last (drop_while_end (Z.eqb slash) (trim s))) as [c|] eqn:E; [|reflexivity].
    eapply drop_while_end_last; eauto.
  - destruct (drop_while_end_split (Z.eqb slash) (trim s)) as (tl & Hs & Htl).
    destruct tl as [|a tl].
    + left. rewrite app_nil_r in Hs. rewrite <- Hs.
      unfold ends_with. destruct (last (trim s)) as [c|] eqn:E; [|reflexivity].
      eapply trim_last; eauto.
    + right. rewrite Hs. apply ends_with_app_class; [exact Htl | discriminate].
Qed.

(** C3, as the specification states it, fails when whitespace stands before
    the slashes: ["foo /"] gives ["foo "], which ends with a space. *)
Lemma formatTargetDir_keeps_inner_space :
  formatTargetDir (Some (lit "foo /")) = Some (lit "foo ")
  /\ ends_with is_space (lit "foo ") = true.
Proof. split; reflexivity. Qed.

(** ** Replacing runs *)

Lemma replace_runs_from_id p rep b s :
  forallb (fun c => negb (p c)) s = true -> replace_runs_from p rep b s = s.
Proof.
  revert b. induction s as [|a s IH]; intros b; simpl; [reflexivity|].
  intros H. apply andb_true_iff in H as [Ha Hs].
  destruct (p a); [discriminate|]. f_equal. apply IH, Hs.
Qed.

Lemma replace_runs_from_outside p q rep b s :
  (forall c, p c = false -> q c = true) ->
  forallb q rep = true ->
  forallb q (replace_runs_from p rep b s) = true.
Proof.
  intros Hpq Hrep. revert b. induction s as [|a s IH]; intros b; simpl; [reflexivity|].
  destruct (p a) eqn:Ha.
  - rewrite forallb_app, IH. destruct b; simpl; [reflexivity|]. rewrite Hrep. reflexivity.
  - simpl. rewrite (Hpq _ Ha), IH. reflexivity.
Qed.

Lemma replace_first_unit_id p rep s :
  starts_with p s = false -> replace_first_unit p rep s = s.
Proof.
  destruct s as [|a s]; simpl; [reflexivity|].
  unfold starts_with; simpl. intros ->. reflexivity.
Qed.

(** The head block of a non-empty string carries the class of its first
    unit. *)
Lemma blocks_head p c t :
  exists r rest, blocks p (c :: t) = (p c, c :: r) :: rest.
Proof.
  simpl. destruct (blocks p t) as [|[b r] rest]; [eauto|].
  destruct (Bool.eqb b (p c)) eqn:E; [|eauto].
  apply eqb_prop in E. subst b. eauto.
Qed.

Lemma blocks_nil p s : blocks p s = [] -> s = [].
Proof.
  destruct s as [|c t]; [reflexivity|].
  destruct (blocks_head p c t) as (r & rest & ->). discriminate.
Qed.

(** The scanning replacement and the block-wise one agree; inside a run the
    scan has already emitted the replacement of the head block. *)
Lemma replace_runs_from_blocks p rep s :
  replace_runs_from p rep false s = each_run_becomes p rep s
  /\ replace_runs_from p rep true s =
       match blocks p s with
       | (true, _) :: rest => concat (map (rewrite_block rep) rest)
       | bs => concat (map (rewrite_block rep) bs)
       end.
Proof.
  unfold each_run_becomes.
  induction s as [|c t [IHf IHt]]; [split; reflexivity|].
  simpl replace_runs_from. rewrite IHf, IHt. simpl blocks.
  destruct (blocks p t) as [|[b r] rest] eqn:Eb.
  - destruct (p c); simpl; split; rewrite ?app_nil_r; reflexivity.
  - destruct (p c) eqn:Hc, b; simpl; unfold rewrite_block; simpl;
      split; reflexivity.
Qed.

Lemma replace_runs_each_run p rep s :
  replace_runs p rep s = each_run_becomes p rep s.
Proof. apply replace_runs_from_blocks. Qed.

Lemma each_run_becomes_ext p q rep s :
  (forall c, p c = q c) -> each_run_becomes p rep s = each_run_becomes q rep s.
Proof.
  intros H. unfold each_run_becomes. f_equal. f_equal.
  induction s as [|c t IH]; simpl; [reflexivity|]. rewrite IH, H. reflexivity.
Qed.

(** ** [toLowerCase] and [trim] on normalized names *)

Lemma name_head_all_not_space s :
  forallb name_head s = true -> forallb (fun c => negb (is_space c)) s = true.
Proof.
  induction s as [|a s IH]; simpl; [reflexivity|].
  intros H. apply andb_true_iff in H as [Ha Hs].
  rewrite (name_head_not_space _ Ha), (IH Hs). reflexivity.
Qed.

Lemma name_head_all_inside s :
  forallb name_head s = true ->
  forallb (fun c => negb (not_name_head c)) s = true.
Proof.
  induction s as [|a s IH]; simpl; [reflexivity|].
  intros H. apply andb_true_iff in H as [Ha Hs].
  unfold not_name_head at 1. rewrite Ha, (IH Hs). reflexivity.
Qed.

Lemma lower_from_name_head tbl rb s :
  forallb name_head s = true -> lower_from tbl rb s = s.
Proof.
  revert rb. induction s as [|a s IH]; intros rb; simpl; [reflexivity|].
  intros H. apply andb_true_iff in H as [Ha Hs].
  destruct (name_head_lower _ Ha) as [-> ->]. simpl. f_equal. apply IH, Hs.
Qed.

(** ** [toValidPackageName] *)

Lemma toValidPackageName_name_head tbl s :
  forallb name_head (toValidPackageName tbl s) = true.
Proof.
  unfold toValidPackageName, replace_runs.
  apply replace_runs_from_outside; [|reflexivity].
  intros c. unfold not_name_head. destruct (name_head c); [reflexivity | discriminate].
Qed.

Lemma toValidPackageName_fixes_name_head tbl s :
  forallb name_head s = true -> toValidPackageName tbl s = s.
Proof.
  intros H. unfold toValidPackageName, toLowerCase, replace_runs.
  rewrite (trim_id _ (name_head_all_not_space _ H)).
  rewrite (lower_from_name_head _ _ _ H).
  rewrite (replace_runs_from_id _ _ _ _ (name_head_all_not_space _ H)).
  rewrite replace_first_unit_id.
  - apply replace_runs_from_id, name_head_all_inside, H.
  - unfold starts_with. destruct s as [|a s]; [reflexivity|]. simpl in *.
    apply andb_true_iff in H as [Ha _]. apply name_head_not_dot, Ha.
Qed.

(** C6: the function is the pipeline the specification words (trim, lower
    case, every whitespace run to one hyphen, one leading dot or underscore
    stripped, every run outside the accepted set to one hyphen), it is
    defined on every string, and ["My Cool App!"] becomes ["my-cool-app-"]
    whatever the runtime's non-ASCII case table is. *)
Theorem toValidPackageName_refines_spec (tbl : lower_table) (s : list Z) :
  toValidPackageName tbl s = spec_toValidPackageName tbl s
  /\ toValidPackageName tbl (lit "My Cool App!") = lit "my-cool-app-".
Proof.
  split; [|reflexivity].
  unfold toValidPackageName, spec_toValidPackageName.
  rewrite !replace_runs_each_run.
  set (x := each_run_becomes is_space _ _).
  replace (replace_first_unit dot_or_underscore [] x)
    with (strip_one_leading_dot_or_underscore x).
  - apply each_run_becomes_ext. intros c. unfold not_name_head.
    rewrite accepted_name_head. reflexivity.
  - destruct x as [|c t]; simpl; [reflexivity|].
    unfold dot_or_underscore, one_of; simpl. rewrite orb_false_r. reflexivity.
Qed.

(** C7: normalizing a normalized name changes nothing. *)
Theorem toValidPackageName_idempotent (tbl : lower_table) (s : list Z) :
  toValidPackageName tbl (toValidPackageName tbl s) = toValidPackageName tbl s.
Proof.
  apply toValidPackageName_fixes_name_head, toValidPackageName_name_head.
Qed.

(** ** Matching by derivatives *)

Lemma matches_Void s : matches Void s = false.
Proof. induction s; simpl; auto. Qed.

Lemma matches_Alt a b s : matches (Alt a b) s = matches a s || matches b s.
Proof.
  revert a b. induction s as [|c s IH]; intros a b; simpl; [reflexivity|]. apply IH.
Qed.

Lemma matches_Seq_Void r s : matches (Seq Void r) s = false.
Proof. induction s; simpl; auto. Qed.

Lemma matches_Seq_Eps r s : matches (Seq Eps r) s = matches r s.
Proof.
  destruct s as [|c s]; simpl; [reflexivity|].
  rewrite matches_Alt, matches_Seq_Void. reflexivity.
Qed.

Lemma matches_Seq_Cls p r c s :
  matches (Seq (Cls p) r) (c :: s) = p c && matches r s.
Proof.
  simpl. destruct (p c); simpl; [apply matches_Seq_Eps | apply matches_Seq_Void].
Qed.

Lemma matches_Star_Cls p s : matches (Star (Cls p)) s = forallb p s.
Proof.
  induction s as [|c s IH]; simpl; [reflexivity|].
  destruct (p c); simpl; [|apply matches_Seq_Void].
  rewrite matches_Seq_Eps. exact IH.
Qed.

Lemma matches_Seq_skip a b c t :
  nullable a = true -> matches b (c :: t) = true -> matches (Seq a b) (c :: t) = true.
Proof.
  intros Ha Hb. simpl in *. rewrite Ha, matches_Alt, Hb. apply orb_true_r.
Qed.

(** A string of units of [[a-z\d\-~]] that is not empty is a package name:
    the optional scope is skipped. *)
Lemma isValidPackageName_name_head c s :
  forallb name_head (c :: s) = true -> isValidPackageName (c :: s) = true.
Proof.
  simpl. intros H. apply andb_true_iff in H as [Hc Hs].
  unfold isValidPackageName, package_name_re.
  apply matches_Seq_skip; [reflexivity|].
  rewrite matches_Seq_Cls, Hc, matches_Star_Cls. simpl.
  clear Hc. induction s as [|a s IH]; simpl in *; [reflexivity|].
  apply andb_true_iff in Hs as [Ha Hs].
  rewrite (name_head_tail _ Ha), (IH Hs). reflexivity.
Qed.

(** C9: the normalizer does not always produce a valid package name; the
    empty name is normalized to itself and is rejected. *)
Theorem toValidPackageName_may_be_invalid (tbl : lower_table) :
  exists s : list Z, isValidPackageName (toValidPackageName tbl s) = false.
Proof. exists []. reflexivity. Qed.

(** C10: a normalized name that is not empty is a valid package name, and
    every unit of a normalized name lies in [[a-z0-9\-~]]. *)
Theorem toValidPackageName_nonempty_valid (tbl : lower_table) (s : list Z) :
  toValidPackageName tbl s <> [] ->
  isValidPackageName (toValidPackageName tbl s) = true
  /\ forallb accepted (toValidPackageName tbl s) = true.
Proof.
  intros Hne. pose proof (toValidPackageName_name_head tbl s) as H.
  split.
  - destruct (toValidPackageName tbl s) as [|c r]; [congruence|].
    apply isValidPackageName_name_head, H.
  - rewrite <- H. clear. induction (toValidPackageName tbl s) as [|c r IH]; [reflexivity|].
    simpl. rewrite IH, accepted_name_head. reflexivity.
Qed.

Lemma toValidPackageName_nonempty_valid_witness :
  toValidPackageName keep_table (lit "My Cool App!") <> []
  /\ isValidPackageName (toValidPackageName keep_table (lit "My Cool App!")) = true
  /\ forallb accepted (toValidPackageName keep_table (lit "My Cool App!")) = true.
Proof.
  split; [discriminate|].
  apply (toValidPackageName_nonempty_valid keep_table (lit "My Cool App!")).
  discriminate.
Defined.

(** ** The catalog fetch *)

Lemma collected_snoc pages items total :
  collected (pages ++ [(items, total)]) = collected pages ++ map to_template items.
Proof.
  unfold collected. rewrite map_app, concat_app. simpl. rewrite app_nil_r. reflexivity.
Qed.

(** The loop, started after the pages [done] have been received, walks
    through the pages [todo] that each leave more to fetch. *)
Lemma fetch_loop_pages server done todo fuel :
  more_after server (done ++ todo) ->
  fetch_loop server (length todo + fuel) (length done) (collected done)
  = fetch_loop server fuel (length (done ++ todo)) (collected (done ++ todo)).
Proof.
  revert done. induction todo as [|[items total] todo IH]; intros done Hmore.
  - rewrite app_nil_r. reflexivity.
  - destruct (Hmore (length done) items total) as [Hsrv Hlt].
    { rewrite lookup_app_r by lia. rewrite Nat.sub_diag. reflexivity. }
    simpl. rewrite Hsrv.
    replace (take (S (length done)) (done ++ (items, total) :: todo))
      with (done ++ [(items, total)]) in Hlt.
    2:{ rewrite (take_app_ge done) by lia.
        replace (S (length done) - length done)%nat with 1%nat by lia.
        reflexivity. }
    rewrite collected_snoc in Hlt.
    apply Z.ltb_lt in Hlt. rewrite Hlt.
    specialize (IH (done ++ [(items, total)])).
    rewrite <- app_assoc in IH. simpl in IH.
    rewrite length_app, collected_snoc in IH. simpl in IH.
    replace (length done + 1)%nat with (S (length done)) in IH by lia.
    apply IH, Hmore.
Qed.

Lemma settle_not_sent_again client service left attempt e :
  service attempt = Rejected e ->
  retryable client e = false ->
  settle client service left attempt = (Rejected e, S attempt).
Proof. intros Hs Hr. destruct left; simpl; rewrite Hs, ?Hr; reflexivity. Qed.

Lemma settle_sent_again client service left attempt e items total :
  service attempt = Rejected e ->
  retryable client e = true ->
  service (S attempt) = Page items total ->
  settle client service (S left) attempt = (Page items total, S (S attempt)).
Proof.
  intros Hs Hr Hnext. simpl. rewrite Hs, Hr.
  destruct left; simpl; rewrite Hnext; reflexivity.
Qed.

Lemma settle_persisting client service e left attempt :
  (forall i, (i <= left)%nat -> service (attempt + i)%nat = Rejected e) ->
  settle client service left attempt
  = (Rejected e, S (attempt + (if retryable client e then left else 0))%nat).
Proof.
  revert attempt. induction left as [|left IH]; intros attempt Hfail.
  - simpl. rewrite <- (Nat.add_0_r attempt) at 1. rewrite (Hfail 0%nat) by lia.
    destruct (retryable client e); rewrite Nat.add_0_r; reflexivity.
  - simpl. rewrite <- (Nat.add_0_r attempt) at 1. rewrite (Hfail 0%nat) by lia.
    destruct (retryable client e) eqn:Hr.
    + rewrite IH.
      * f_equal. lia.
      * intros i Hi. replace (S attempt + i)%nat with (attempt + S i)%nat by lia.
        apply Hfail. lia.
    + rewrite Nat.add_0_r. reflexivity.
Qed.




(** ** The decision flow *)

Lemma for_each_onState states s :
  for_each states onState s
  = (Ok tt, {| files := files s; trace := trace s;
               targetDir := typed_targetDir (targetDir s) states |}).
Proof.
  revert s. induction states as [|v states IH]; intros s.
  - destruct s; reflexivity.
  - simpl. unfold bind at 1. simpl. rewrite IH. reflexivity.
Qed.

Lemma quiet_ret {A} (a : A) : quiet (ret a).
Proof. intros s. do 2 (split; [reflexivity|]). exists []. rewrite app_nil_r. auto. Qed.

Lemma quiet_throw {A} e : quiet (@throw A e).
Proof. intros s. do 2 (split; [reflexivity|]). exists []. rewrite app_nil_r. auto. Qed.

Lemma quiet_bind {A B} (m : M A) (k : A -> M B) :
  quiet m -> (forall a, quiet (k a)) -> quiet (bind m k).
Proof.
  intros Hm Hk s. unfold bind.
  destruct (Hm s) as (Hf & Hd & asked & Ht & Hq).
  destruct (m s) as [[a|e] s1]; simpl in *.
  - destruct (Hk a s1) as (Hf' & Hd' & asked' & Ht' & Hq').
    split; [congruence|]. split; [congruence|]. exists (asked ++ asked').
    rewrite Ht', Ht, app_assoc, forallb_app, Hq, Hq'. auto.
  - split; [exact Hf|]. split; [exact Hd|]. exists asked. auto.
Qed.

Lemma quiet_asked q : quiet (emit (Asked q)).
Proof. intros s. do 2 (split; [reflexivity|]). exists [Asked q]. auto. Qed.

Lemma quiet_state {A} (f : State -> A) : quiet (fun s => (Ok (f s), s)).
Proof. intros s. do 2 (split; [reflexivity|]). exists []. rewrite app_nil_r. auto. Qed.

Lemma quiet_lift_fs {A} (r : FsErrorCode + A) : quiet (lift_fs r).
Proof. destruct r; [apply quiet_throw | apply quiet_ret]. Qed.

Lemma quiet_ask {A} q (a : Answer A) : quiet (ask q a).
Proof.
  apply quiet_bind; [apply quiet_asked|]. intros _.
  destruct a; [apply quiet_ret | apply quiet_throw].
Qed.

Lemma quiet_when b (m : M unit) : quiet m -> quiet (when b m).
Proof. destruct b; [auto | intros _; apply quiet_ret]. Qed.

Lemma quiet_select q choices a : quiet (select q choices a).
Proof.
  destruct choices as [|first others]; [apply quiet_throw|].
  apply quiet_bind; [apply quiet_ask|]. intros cursor. apply quiet_ret.
Qed.

(** The flow reads the file system and never writes it, it only asks
    questions, and the [targetDir] it leaves is the one the state events of
    the project-name prompt have produced. *)
Lemma flow_effects w repoTemplates isValidTemplate s :
  files (snd (flow w repoTemplates isValidTemplate s)) = files s
  /\ targetDir (snd (flow w repoTemplates isValidTemplate s))
     = typed_targetDir (targetDir s) (projectName_states (user w))
  /\ exists asked,
       trace (snd (flow w repoTemplates isValidTemplate s)) = trace s ++ asked
       /\ forallb is_question asked = true.
Proof.
  remember (flow w repoTemplates isValidTemplate s) as run eqn:Hrun.
  unfold flow in Hrun. unfold bind at 1 in Hrun. cbn [emit fst snd] in Hrun.
  unfold bind at 1 in Hrun. rewrite for_each_onState in Hrun.
  cbn [files trace targetDir] in Hrun.
  set (s0 := {| files := files s; trace := trace s ++ [Asked QProjectName];
                targetDir := typed_targetDir (targetDir s) (projectName_states (user w)) |})
    in Hrun.
  match type of Hrun with
  | _ = ?rest s0 =>
      assert (Hrest : quiet rest); [|destruct (Hrest s0) as (Hf & Hd & asked & Ht & Hq)]
  end.
  { apply quiet_bind; [apply quiet_when, quiet_throw|]. intros _.
    apply quiet_bind; [apply (quiet_state targetDir)|]. intros td.
    apply quiet_bind.
    { apply quiet_bind; [apply (quiet_state files)|]. intros fs. apply quiet_ret. }
    intros present.
    apply quiet_bind.
    { destruct present; simpl; [|apply quiet_ret].
      apply quiet_bind; [apply (quiet_state files)|]. intros fs. apply quiet_lift_fs. }
    intros skip.
    apply quiet_bind.
    { destruct skip; [apply quiet_ret|].
      apply quiet_bind; [apply quiet_ask|]. intros b. apply quiet_ret. }
    intros ov.
    apply quiet_bind; [apply quiet_when, quiet_throw|]. intros _.
    apply quiet_bind.
    { apply quiet_bind; [apply (quiet_state targetDir)|]. intros d. apply quiet_ret. }
    intros pn.
    apply quiet_bind.
    { destruct (isValidPackageName pn); [apply quiet_ret|].
      apply quiet_bind; [apply quiet_ask|]. intros v. apply quiet_ret. }
    intros pkg.
    apply quiet_bind.
    { destruct isValidTemplate; [apply quiet_ret | apply quiet_select]. }
    intros tpl. apply quiet_ret. }
  rewrite <- Hrun in Hf, Hd, Ht. subst s0. cbn [files trace targetDir] in Hf, Hd, Ht.
  split; [exact Hf|]. split; [exact Hd|].
  exists (Asked QProjectName :: asked). split; [|simpl; exact Hq].
  rewrite Ht, <- app_assoc. reflexivity.
Qed.

(** The state in which the questions start. *)
Lemma init_unfold w repoTemplates s :
  init w repoTemplates s
  = (let argTemplate := or_undefined (argv_template w) (argv_t w) in
     let isValidTemplate := truthy argTemplate && existsb (named argTemplate) repoTemplates in
     let s0 := {| files := files s; trace := trace s;
                  targetDir := or_else (formatTargetDir (argv_0 w)) defaultTargetDir |} in
     match flow w repoTemplates isValidTemplate s0 with
     | (Throw e, s1) =>
         (Ok None, {| files := files s1; trace := trace s1 ++ [ConsoleLogMessage e];
                      targetDir := targetDir s1 |})
     | (Ok result, s1) =>
         let root := path_join (cwd w) (targetDir s1) in
         let present := fs_exists (files s1) root in
         let removing :=
           (negb (match overwrite result with Some b => b | None => false end)
            || match overwrite result with Some true => true | _ => false end)
           && present in
         let s2 := if removing then
                     {| files := fs_remove_tree (files s1) root;
                        trace := trace s1 ++ [RmSync root true];
                        targetDir := targetDir s1 |}
                   else s1 in
         match match template result with
               | Some t => Some t
               | None => find (named argTemplate) repoTemplates
               end with
         | None => (Throw TemplateNotAvailable, s2)
         | Some selected =>
             let command := lit "git clone " ++ clone_url selected ++ lit " " ++ targetDir s2 in
             (Ok (Some {| pending_command := command;
                          pending_root := root;
                          pending_packageName := packageName result |}),
              {| files := files s2;
                 trace := (trace s2 ++ [ConsoleLogCloning root]) ++ [Exec command];
                 targetDir := targetDir s2 |})
         end
     end).
Proof.
  unfold init, bind, try_catch, set_targetDir at 1. simpl.
  destruct (flow _ _ _ _) as [[result|e] s1]; [|reflexivity].
  unfold get_targetDir, existsSync, get_files, bind, ret, when. simpl.
  destruct (_ && fs_exists _ _); simpl.
  - destruct (match template result with Some _ => _ | None => _ end); reflexivity.
  - destruct (match template result with Some _ => _ | None => _ end); [|destruct s1]; reflexivity.
Qed.

Lemma flow_declined w repoTemplates isValidTemplate s :
  projectName_aborted (user w) = false ->
  exists_at (files s) (cwd w)
    (typed_targetDir (targetDir s) (projectName_states (user w))) = true ->
  isEmpty_at (files s) (cwd w)
    (typed_targetDir (targetDir s) (projectName_states (user w))) = inr false ->
  overwrite_answer (user w) = Submit false ->
  flow w repoTemplates isValidTemplate s
  = (Throw OperationCancelled,
     {| files := files s;
        trace := trace s ++ [Asked QProjectName; Asked QOverwrite];
        targetDir := typed_targetDir (targetDir s) (projectName_states (user w)) |}).
Proof.
  intros Hsub Hex Hne Hans.
  unfold flow. unfold bind at 1. simpl.
  unfold bind at 1. rewrite for_each_onState. simpl.
  unfold bind at 1. rewrite Hsub. simpl.
  unfold bind at 1. simpl.
  unfold bind at 1. unfold existsSync_text, get_files, bind at 1. simpl. rewrite Hex. simpl.
  unfold bind at 1. unfold isEmpty, get_files, bind at 1. simpl. rewrite Hne. simpl.
  unfold bind at 1. unfold bind at 1. unfold ask, bind at 1. simpl. rewrite Hans. simpl.
  unfold bind at 1. simpl. rewrite <- app_assoc. reflexivity.
Qed.

(** C5: when the target directory exists, is not empty, and the user answers
    no to the confirmation, the cancellation is thrown inside the flow and
    caught by the handler around it, its message is printed, and the program
    ends: the file system is the one it started with, and nothing was
    removed, cloned or written. *)
Theorem declined_overwrite_changes_nothing
    (fuel : nat) (w : World) (repoTemplates : list ITemplate) :
  fst (fetchTemplateRepositories (server w) fuel) = Fetched repoTemplates ->
  projectName_aborted (user w) = false ->
  exists_at (disk w) (cwd w) (resolved_targetDir w) = true ->
  isEmpty_at (disk w) (cwd w) (resolved_targetDir w) = inr false ->
  overwrite_answer (user w) = Submit false ->
  outcome (main fuel w) = Finished
  /\ files (final (main fuel w)) = disk w
  /\ trace (final (main fuel w))
     = [Asked QProjectName; Asked QOverwrite; ConsoleLogMessage OperationCancelled]
  /\ mutations (trace (final (main fuel w))) = [].
Proof.
  intros Hfetch Hsub Hex Hne Hans. unfold resolved_targetDir in Hex, Hne.
  unfold main. rewrite Hfetch, init_unfold. cbv zeta.
  rewrite flow_declined by assumption.
  simpl. auto.
Qed.

Lemma declined_overwrite_changes_nothing_witness :
  outcome (main 3 decline_world) = Finished
  /\ files (final (main 3 decline_world)) = disk decline_world
  /\ trace (final (main 3 decline_world))
     = [Asked QProjectName; Asked QOverwrite; ConsoleLogMessage OperationCancelled]
  /\ mutations (trace (final (main 3 decline_world))) = [].
Proof.
  apply (declined_overwrite_changes_nothing 3 decline_world
           [to_template (sample_repo "t1")]);
    vm_compute; reflexivity.
Defined.

(** ** What a completed flow has established *)

(** A selection that is followed by the end of the flow: the list was not
    empty, the selection was submitted, and the answer is the template under
    the cursor. *)
Lemma select_submitted (repoTemplates : list ITemplate) (a : Answer nat)
    (k : option ITemplate -> Answers) s0 result s1 :
  match select QTemplate (map to_choice repoTemplates) a s0 with
  | (Ok tpl, s') => (Ok (k tpl), s')
  | (Throw e, s') => (Throw e, s')
  end = (Ok result, s1) ->
  exists cursor t,
    a = Submit cursor
    /\ repoTemplates !! (Nat.min cursor (length repoTemplates - 1)) = Some t
    /\ result = k (Some t)
    /\ s1 = {| files := files s0; trace := trace s0 ++ [Asked QTemplate];
               targetDir := targetDir s0 |}.
Proof.
  destruct repoTemplates as [|t0 rest]; [discriminate|].
  cbn [map select]. unfold bind at 1, ask, bind at 1, emit.
  destruct a as [cursor|]; [|discriminate].
  cbn [ret]. intros [= <- <-].
  exists cursor, (nth (Nat.min cursor (length rest)) (t0 :: rest) t0).
  split; [reflexivity|]. split; [|split; [|reflexivity]].
  - replace (length (t0 :: rest) - 1)%nat with (length rest) by (cbn [length]; lia).
    destruct (nth_lookup_or_length (t0 :: rest) (Nat.min cursor (length rest)) t0)
      as [Hnth|Hlen]; [exact Hnth|]. cbn [length] in Hlen. lia.
  - rewrite length_map.
    destruct (Nat.min cursor (length rest)) as [|m]; [reflexivity|].
    cbn [nth]. rewrite map_nth. reflexivity.
Qed.

(** The last three questions, from the check of the overwrite answer on. *)
Lemma flow_tail_completed w repoTemplates (isValidTemplate : bool) (ov : option bool)
    s0 result s1 :
  (when (match ov with Some false => true | _ => false end)
        (throw OperationCancelled) ;;
   projectName <- getProjectName w ;;
   packageName <- (if isValidPackageName projectName then ret None
                   else
                     v <- ask QPackageName
                            (first_accepted isValidPackageName
                               (toValidPackageName (lower w) projectName)
                               (packageName_attempts (user w))) ;;
                     ret (Some v)) ;;
   template <- (if isValidTemplate then ret None
                else select QTemplate (map to_choice repoTemplates)
                       (template_answer (user w))) ;;
   ret {| overwrite := ov; packageName := packageName; template := template |})%js s0
  = (Ok result, s1) ->
  ov <> Some false
  /\ overwrite result = ov
  /\ ((packageName result = None
       /\ isValidPackageName (projectName_of w (targetDir s0)) = true)
      \/ (exists v,
             packageName result = Some v
             /\ isValidPackageName (projectName_of w (targetDir s0)) = false
             /\ first_accepted isValidPackageName
                  (toValidPackageName (lower w) (projectName_of w (targetDir s0)))
                  (packageName_attempts (user w)) = Submit v))
  /\ ((isValidTemplate = true /\ template result = None)
      \/ (isValidTemplate = false
          /\ exists cursor t,
               template_answer (user w) = Submit cursor
               /\ repoTemplates !! (Nat.min cursor (length repoTemplates - 1)) = Some t
               /\ template result = Some t))
  /\ trace s1
     = trace s0
         ++ (match packageName result with Some _ => [Asked QPackageName] | None => [] end)
         ++ (if isValidTemplate then [] else [Asked QTemplate]).
Proof.
  intros H.
  unfold bind at 1 in H.
  assert (Hov : ov <> Some false).
  { intros ->. discriminate H. }
  replace (match ov with Some false => true | _ => false end) with false in H
    by (destruct ov as [[|]|]; congruence).
  cbn [when ret] in H.
  unfold bind at 1 in H. unfold getProjectName, bind at 1, get_targetDir, ret in H.
  set (pn := projectName_of w (targetDir s0)) in *.
  unfold bind at 1 in H.
  destruct (isValidPackageName pn) eqn:Hvalid.
  - (* the package name is not asked *)
    unfold bind at 1 in H.
    destruct isValidTemplate.
    + injection H as <- <-. cbn. rewrite app_nil_r. repeat split; auto.
    + destruct (select_submitted repoTemplates (template_answer (user w))
                  (fun tpl => {| overwrite := ov; packageName := None; template := tpl |})
                  _ _ _ H) as (cursor & t & Hans & Ht & -> & ->).
      cbn.
      split; [exact Hov|]. split; [reflexivity|]. split; [left; auto|].
      split; [right; eauto 10|reflexivity].
  - (* the package name is asked *)
    unfold bind at 1, ask, bind at 1, emit in H.
    destruct (first_accepted isValidPackageName _ _) as [v|] eqn:Hacc; [|discriminate H].
    cbn [ret throw] in H.
    unfold bind at 1 in H.
    destruct isValidTemplate.
    + injection H as <- <-. cbn.
      split; [exact Hov|]. split; [reflexivity|]. split; [right; eauto|].
      split; [left; auto|reflexivity].
    + destruct (select_submitted repoTemplates (template_answer (user w))
                  (fun tpl => {| overwrite := ov; packageName := Some v; template := tpl |})
                  _ _ _ H) as (cursor & t & Hans & Ht & -> & ->).
      cbn.
      split; [exact Hov|]. split; [reflexivity|]. split; [right; eauto|].
      split; [right; eauto 10|]. rewrite <- app_assoc. reflexivity.
Qed.

Lemma flow_completed w repoTemplates (isValidTemplate : bool) s result s1 :
  flow w repoTemplates isValidTemplate s = (Ok result, s1) ->
  projectName_aborted (user w) = false
  /\ ((overwrite result = None
       /\ (exists_at (files s) (cwd w)
             (typed_targetDir (targetDir s) (projectName_states (user w))) = false
           \/ isEmpty_at (files s) (cwd w)
                (typed_targetDir (targetDir s) (projectName_states (user w))) = inr true))
      \/ (overwrite result = Some true
          /\ exists_at (files s) (cwd w)
               (typed_targetDir (targetDir s) (projectName_states (user w))) = true
          /\ isEmpty_at (files s) (cwd w)
               (typed_targetDir (targetDir s) (projectName_states (user w))) = inr false
          /\ overwrite_answer (user w) = Submit true))
  /\ ((packageName result = None
       /\ isValidPackageName
            (projectName_of w (typed_targetDir (targetDir s) (projectName_states (user w))))
          = true)
      \/ (exists v,
             packageName result = Some v
             /\ isValidPackageName
                  (projectName_of w
                     (typed_targetDir (targetDir s) (projectName_states (user w)))) = false
             /\ first_accepted isValidPackageName
                  (toValidPackageName (lower w)
                     (projectName_of w
                        (typed_targetDir (targetDir s) (projectName_states (user w)))))
                  (packageName_attempts (user w)) = Submit v))
  /\ ((isValidTemplate = true /\ template result = None)
      \/ (isValidTemplate = false
          /\ exists cursor t,
               template_answer (user w) = Submit cursor
               /\ repoTemplates !! (Nat.min cursor (length repoTemplates - 1)) = Some t
               /\ template result = Some t))
  /\ trace s1
     = trace s ++ [Asked QProjectName]
         ++ (match overwrite result with Some _ => [Asked QOverwrite] | None => [] end)
         ++ (match packageName result with Some _ => [Asked QPackageName] | None => [] end)
         ++ (if isValidTemplate then [] else [Asked QTemplate]).
Proof.
  intros H. unfold flow in H.
  unfold bind at 1 in H. cbn [emit] in H.
  unfold bind at 1 in H. rewrite for_each_onState in H. cbn [files trace targetDir] in H.
  set (td := typed_targetDir (targetDir s) (projectName_states (user w))) in *.
  unfold bind at 1 in H.
  destruct (projectName_aborted (user w)); [discriminate H|]. cbn [when ret] in H.
  unfold bind at 1 in H. cbn [get_targetDir targetDir] in H.
  unfold bind at 1 in H. unfold existsSync_text, bind at 1, get_files, ret in H.
  cbn [files] in H.
  split; [reflexivity|].
  unfold bind at 1 in H.
  destruct (exists_at (files s) (cwd w) td) eqn:Hex; cbn [negb] in H.
  - unfold isEmpty, bind at 1, get_files in H. cbn [files] in H.
    destruct (isEmpty_at (files s) (cwd w) td) as [code|[|]] eqn:Hem;
      cbn [lift_fs ret throw] in H; [discriminate H| |].
    + unfold bind at 1 in H.
      apply (flow_tail_completed w repoTemplates isValidTemplate None) in H
        as (_ & Hov & Hpkg & Htpl & Htrace).
      cbn [targetDir trace] in Hpkg, Htrace.
      rewrite Hov. split; [left; auto|]. split; [exact Hpkg|]. split; [exact Htpl|].
      rewrite Htrace, <- !app_assoc. reflexivity.
    + unfold bind at 1, bind at 1, ask, bind at 1, emit in H.
      destruct (overwrite_answer (user w)) as [b|] eqn:Hans; [|discriminate H].
      cbn [ret] in H.
      apply (flow_tail_completed w repoTemplates isValidTemplate (Some b)) in H
        as (Hne & Hov & Hpkg & Htpl & Htrace).
      cbn [targetDir trace] in Hpkg, Htrace.
      destruct b; [|congruence].
      rewrite Hov. split; [right; auto|]. split; [exact Hpkg|]. split; [exact Htpl|].
      rewrite Htrace, <- !app_assoc. reflexivity.
  - unfold bind at 1 in H.
    apply (flow_tail_completed w repoTemplates isValidTemplate None) in H
      as (_ & Hov & Hpkg & Htpl & Htrace).
    cbn [targetDir trace] in Hpkg, Htrace.
    rewrite Hov. split; [left; auto|]. split; [exact Hpkg|]. split; [exact Htpl|].
    rewrite Htrace, <- !app_assoc. reflexivity.
Qed.

(** ** The target directory *)

Lemma typed_targetDir_last start states v :
  typed_targetDir start (states ++ [v])
  = or_else (formatTargetDir (Some v)) defaultTargetDir.
Proof. unfold typed_targetDir. rewrite fold_left_app. reflexivity. Qed.

(** C2 on the code: the project-name prompt is always asked and each of its
    state events overwrites [targetDir], so after the flow [targetDir] is
    decided by the last state event alone and the positional argument does
    not survive the prompt.  With the argument [foo] and [bar] entered at the
    prompt, the clone goes to [bar]. *)
Theorem positional_argument_overwritten :
  (forall w repoTemplates isValidTemplate s,
      targetDir (snd (flow w repoTemplates isValidTemplate s))
      = typed_targetDir (targetDir s) (projectName_states (user w)))
  /\ (forall start states v,
      typed_targetDir start (states ++ [v])
      = or_else (formatTargetDir (Some v)) defaultTargetDir)
  /\ formatTargetDir (argv_0 foo_bar_world) = Some (lit "foo")
  /\ targetDir (final (main 3 foo_bar_world)) = lit "bar"
  /\ mutations (trace (final (main 3 foo_bar_world)))
     = [Exec (lit "git clone https://github.com/congnv0330/t1.git bar");
        RmSync [lit "work"; lit "bar"; lit ".git"] true;
        RmSync [lit "work"; lit "bar"; lit "package-lock.json"] false;
        RmSync [lit "work"; lit "bar"; lit "yarn.lock"] false].
Proof.
  split; [intros; apply flow_effects|].
  split; [apply typed_targetDir_last|].
  vm_compute. repeat split; reflexivity.
Qed.

(** ** The package descriptor *)

Lemma str_eqb_refl a : str_eqb a a = true.
Proof. induction a as [|x a IH]; simpl; [reflexivity|]. rewrite Z.eqb_refl. exact IH. Qed.

Lemma is_prefix_app root p q : is_prefix (root ++ p) (root ++ q) = is_prefix p q.
Proof.
  induction root as [|a root IH]; simpl; [reflexivity|].
  rewrite str_eqb_refl. exact IH.
Qed.

Lemma keeps_bind {A B} target (m : M A) (k : A -> M B) :
  keeps target m -> (forall a, keeps target (k a)) -> keeps target (bind m k).
Proof.
  intros Hm Hk s. unfold bind. specialize (Hm s).
  destruct (m s) as [[a|e] s1]; simpl in *; [|exact Hm].
  rewrite (Hk a s1). exact Hm.
Qed.

Lemma keeps_emit target ev : keeps target (emit ev).
Proof. intros s. reflexivity. Qed.

Lemma keeps_rmSync_recursive_force target p :
  is_prefix p target = false -> keeps target (rmSync_recursive_force p).
Proof.
  intros Hp s. unfold rmSync_recursive_force, bind, emit, get_files, set_files.
  simpl. unfold fs_remove_tree.
  destruct (files s !! target) as [x|] eqn:E.
  - apply map_lookup_filter_Some. split; [exact E | exact Hp].
  - apply map_lookup_filter_None. left. exact E.
Qed.

Lemma keeps_rmSync_force target p :
  p <> target -> keeps target (rmSync_force p).
Proof.
  intros Hp s. unfold rmSync_force, bind, emit, get_files, set_files, fs_remove_file.
  simpl. destruct (files s !! p) as [[text|]|]; simpl; try reflexivity.
  apply lookup_delete_ne, Hp.
Qed.

Lemma set_prop_get key v props :
  get_prop key (set_prop key v props) = Some v.
Proof.
  induction props as [|[k old] rest IH]; simpl.
  - rewrite str_eqb_refl. reflexivity.
  - destruct (str_eqb k key) eqn:E; simpl; rewrite E; [reflexivity | exact IH].
Qed.

Lemma set_prop_others v props :
  other_props (set_prop (lit "name") v props) = other_props props.
Proof.
  unfold other_props. induction props as [|[k old] rest IH].
  - reflexivity.
  - cbn [set_prop]. destruct (str_eqb k (lit "name")) eqn:E.
    + cbn [List.filter fst]. rewrite E. reflexivity.
    + cbn [List.filter fst]. rewrite E. cbn [negb]. f_equal. exact IH.
Qed.

Lemma stringify_object_closes key v props :
  exists body,
    stringify (JObject (set_prop key v props)) = body ++ lit "}"
    /\ last body = Some newline.
Proof.
  unfold stringify.
  destruct (set_prop key v props) as [|kv rest] eqn:E.
  - destruct props as [|[k old] r]; simpl in E; [discriminate|].
    destruct (str_eqb k key); discriminate.
  - cbn [stringify_at].
    eexists (lit "{" ++ [newline] ++ join_with _ _ ++ [newline]).
    split.
    + rewrite <- !app_assoc. reflexivity.
    + rewrite !app_assoc. apply last_snoc.
Qed.

Lemma path_join_package_json root :
  path_join root (lit "package.json") = root ++ [lit "package.json"].
Proof. reflexivity. Qed.

Lemma writeFileSync_over_file p content old s :
  files s !! removelast p = Some Dir ->
  files s !! p = Some (File old) ->
  writeFileSync p content s
  = (Ok tt, {| files := <[p := File content]> (files s);
               trace := trace s ++ [WriteFileSync p content];
               targetDir := targetDir s |}).
Proof.
  intros Hdir Hfile.
  unfold writeFileSync, bind, emit, get_files, set_files, fs_write_file. simpl.
  rewrite Hdir, Hfile. reflexivity.
Qed.

(** What the callback does after the descriptor: the clean-up leaves
    [package.json] alone. *)
Lemma cleanup_keeps_package_json root :
  keeps (root ++ [lit "package.json"])
    (bind (rmSync_recursive_force (path_join root (lit ".git"))) (fun _ =>
     bind (rmSync_force (path_join root (lit "package-lock.json"))) (fun _ =>
     bind (rmSync_force (path_join root (lit "yarn.lock"))) (fun _ =>
     emit ConsoleLogDone)))).
Proof.
  apply keeps_bind.
  { apply keeps_rmSync_recursive_force.
    change (path_join root (lit ".git")) with (root ++ [lit ".git"]).
    rewrite is_prefix_app. reflexivity. }
  intros _. apply keeps_bind.
  { apply keeps_rmSync_force.
    change (path_join root (lit "package-lock.json")) with (root ++ [lit "package-lock.json"]).
    intros H. apply app_inv_head in H. discriminate. }
  intros _. apply keeps_bind.
  { apply keeps_rmSync_force.
    change (path_join root (lit "yarn.lock")) with (root ++ [lit "yarn.lock"]).
    intros H. apply app_inv_head in H. discriminate. }
  intros _. apply keeps_emit.
Qed.



(** ** Whole runs *)

(** A scaffold from start to end: the package name offered by the prompt is
    taken, the descriptor is rewritten, and the git metadata and the lock
    file are gone. *)
Example scaffold_run :
  outcome (main 3 scaffold_world) = Finished
  /\ files (final (main 3 scaffold_world)) !! [lit "work"; lit "Demo-App"; lit "package.json"]
     = Some (File renamed_package_json)
  /\ files (final (main 3 scaffold_world)) !! [lit "work"; lit "Demo-App"; lit ".git"] = None
  /\ files (final (main 3 scaffold_world)) !! [lit "work"; lit "Demo-App"; lit ".git"; lit "HEAD"]
     = None
  /\ files (final (main 3 scaffold_world)) !! [lit "work"; lit "Demo-App"; lit "yarn.lock"] = None
  /\ List.filter is_question (trace (final (main 3 scaffold_world)))
     = [Asked QProjectName; Asked QPackageName; Asked QTemplate].
Proof. vm_compute. repeat split; reflexivity. Qed.

(** A rejected request ends the fetch at once, and the program with it. *)
Example rejected_fetch :
  fetchTemplateRepositories failing_server 10 = (FetchRejected (HttpError 403), 2%nat).
Proof. reflexivity. Qed.

Example isValidPackageName_samples :
  isValidPackageName (lit "@scope/pkg-1") = true
  /\ isValidPackageName (lit "Invalid Name") = false
  /\ isValidPackageName (lit "-") = true
  /\ isValidPackageName [] = false.
Proof. repeat split; reflexivity. Qed.

(** ** The language of the package-name expression *)

Lemma matches_Eps s : matches Eps s = true <-> s = [].
Proof.
  destruct s as [|c s]; simpl; [tauto|].
  rewrite matches_Void. split; discriminate.
Qed.

Lemma matches_Cls p s : matches (Cls p) s = true <-> exists c, s = [c] /\ p c = true.
Proof.
  destruct s as [|c s]; simpl.
  - split; [discriminate | intros (c & H & _); discriminate H].
  - destruct (p c) eqn:Hc.
    + rewrite matches_Eps. split.
      * intros ->. eauto.
      * intros (c' & [= -> ->] & _). reflexivity.
    + rewrite matches_Void. split; [discriminate|].
      intros (c' & [= -> ->] & H). congruence.
Qed.

(** A sequence matches when the string splits into a part for each side. *)
Lemma matches_Seq a b s :
  matches (Seq a b) s = true
  <-> exists s1 s2, s = s1 ++ s2 /\ matches a s1 = true /\ matches b s2 = true.
Proof.
  revert a b. induction s as [|c s IH]; intros a b.
  - simpl. rewrite andb_true_iff. split.
    + intros [Ha Hb]. exists [], []. auto.
    + intros (s1 & s2 & Hs & Ha & Hb).
      symmetry in Hs. apply app_eq_nil in Hs as [-> ->]. auto.
  - simpl. destruct (nullable a) eqn:Hn.
    + rewrite matches_Alt, orb_true_iff, IH. split.
      * intros [(s1 & s2 & -> & Ha & Hb) | Hb].
        -- exists (c :: s1), s2. auto.
        -- exists [], (c :: s). auto.
      * intros (s1 & s2 & Hs & Ha & Hb). destruct s1 as [|c' s1].
        -- simpl in Hs. subst s2. right. exact Hb.
        -- injection Hs as <- ->. left. exists s1, s2. auto.
    + rewrite IH. split.
      * intros (s1 & s2 & -> & Ha & Hb). exists (c :: s1), s2. auto.
      * intros (s1 & s2 & Hs & Ha & Hb). destruct s1 as [|c' s1].
        -- simpl in Ha. congruence.
        -- injection Hs as <- ->. exists s1, s2. auto.
Qed.

Lemma matches_Opt r s : matches (Opt r) s = true <-> s = [] \/ matches r s = true.
Proof. unfold Opt. rewrite matches_Alt, orb_true_iff, matches_Eps. tauto. Qed.

(** The strings of the expression: a name, or a scope, a slash and a name. *)
Lemma package_name_re_language s :
  matches package_name_re s = true
  <-> (exists c r,
          s = c :: r /\ name_head c = true /\ forallb name_tail r = true)
      \/ (exists h sc c r,
             s = 64 :: h :: sc ++ slash :: c :: r
             /\ scope_head h = true /\ forallb scope_tail sc = true
             /\ name_head c = true /\ forallb name_tail r = true).
Proof.
  assert (Hname : forall t,
             matches (Seq (Cls name_head) (Star (Cls name_tail))) t = true
             <-> exists c r, t = c :: r /\ name_head c = true /\ forallb name_tail r = true).
  { intros t. rewrite matches_Seq. split.
    - intros (s1 & s2 & -> & H1 & H2).
      apply matches_Cls in H1 as (c & -> & Hc). rewrite matches_Star_Cls in H2.
      exists c, s2. auto.
    - intros (c & r & -> & Hc & Hr). exists [c], r.
      rewrite matches_Star_Cls. split; [reflexivity|]. split; [|exact Hr].
      apply matches_Cls. eauto. }
  unfold package_name_re. rewrite matches_Seq. split.
  - intros (s1 & s2 & -> & Hscope & Hn).
    apply Hname in Hn as (c & r & -> & Hc & Hr).
    apply matches_Opt in Hscope as [-> | Hscope].
    + left. exists c, r. auto.
    + right.
      apply matches_Seq in Hscope as (a1 & a2 & -> & Hat & Hscope).
      apply matches_Cls in Hat as (at_ & -> & Hat). apply Z.eqb_eq in Hat. subst at_.
      apply matches_Seq in Hscope as (b1 & b2 & -> & Hh & Hscope).
      apply matches_Cls in Hh as (h & -> & Hh).
      apply matches_Seq in Hscope as (c1 & c2 & -> & Hsc & Hsl).
      rewrite matches_Star_Cls in Hsc.
      apply matches_Cls in Hsl as (sl & -> & Hsl). apply Z.eqb_eq in Hsl. subst sl.
      exists h, c1, c, r. rewrite <- !app_assoc. simpl. auto.
  - intros [(c & r & -> & Hc & Hr) | (h & sc & c & r & -> & Hh & Hsc & Hc & Hr)].
    + exists [], (c :: r). split; [reflexivity|]. split; [reflexivity|].
      apply Hname. eauto.
    + exists (64 :: h :: sc ++ [slash]), (c :: r).
      split; [simpl; rewrite <- app_assoc; reflexivity|].
      split; [|apply Hname; eauto].
      apply matches_Opt. right.
      apply matches_Seq. exists [64], (h :: sc ++ [slash]).
      split; [reflexivity|]. split; [apply matches_Cls; eauto|].
      apply matches_Seq. exists [h], (sc ++ [slash]).
      split; [reflexivity|]. split; [apply matches_Cls; eauto|].
      apply matches_Seq. exists sc, [slash].
      split; [reflexivity|]. split; [rewrite matches_Star_Cls; exact Hsc|].
      apply matches_Cls. exists slash. auto.
Qed.

(** X1: [isValidPackageName] accepts exactly the strings made of a first
    unit of [[a-z0-9\-~]] followed by units of [[a-z0-9\-._~]], optionally
    preceded by a scope: an at sign, a unit of [[a-z0-9\-*~]], units of
    [[a-z0-9\-*._~]] and a slash. *)
Theorem isValidPackageName_shape (s : list Z) :
  isValidPackageName s = true
  <-> (exists c r,
          s = c :: r /\ name_head c = true /\ forallb name_tail r = true)
      \/ (exists h sc c r,
             s = 64 :: h :: sc ++ slash :: c :: r
             /\ scope_head h = true /\ forallb scope_tail sc = true
             /\ name_head c = true /\ forallb name_tail r = true).
Proof. apply package_name_re_language. Qed.

Lemma package_name_unit_range c :
  package_name_unit c = true ->
  97 <= c <= 122 \/ 48 <= c <= 57 \/ c = 45 \/ c = 42 \/ c = 46 \/ c = 95
  \/ c = 126 \/ c = 64 \/ c = 47.
Proof.
  unfold package_name_unit, scope_tail, lower_or_digit, between, one_of, slash; simpl.
  intros H. bool_to_prop H. lia.
Qed.

Lemma package_name_unit_plain c :
  package_name_unit c = true -> is_space c = false /\ between 65 90 c = false.
Proof.
  intros H. apply package_name_unit_range in H. split.
  - apply not_true_is_false. intros Hs.
    unfold is_space, one_of, between in Hs; simpl in Hs. bool_to_prop Hs. lia.
  - apply not_true_is_false. intros Hs.
    unfold between in Hs. bool_to_prop Hs. lia.
Qed.

Lemma class_in_package_name_unit c :
  name_head c = true \/ name_tail c = true \/ scope_head c = true \/ scope_tail c = true ->
  package_name_unit c = true.
Proof.
  unfold package_name_unit, name_head, name_tail, scope_head, scope_tail, one_of; simpl.
  destruct (lower_or_digit c), (c =? 45), (c =? 42), (c =? 46), (c =? 95), (c =? 126);
    simpl; intuition congruence.
Qed.

Lemma forallb_weaken (p q : Z -> bool) s :
  (forall c, p c = true -> q c = true) -> forallb p s = true -> forallb q s = true.
Proof.
  intros Hpq. induction s as [|c s IH]; simpl; [reflexivity|].
  intros H. apply andb_true_iff in H as [Hc Hs]. rewrite (Hpq _ Hc), (IH Hs). reflexivity.
Qed.

(** X2: a string that [isValidPackageName] accepts is not empty and is made
    of units of [[a-z0-9\-*._~@/]] only; in particular it holds no
    whitespace and no upper-case letter. *)
Theorem isValidPackageName_units (s : list Z) :
  isValidPackageName s = true ->
  s <> []
  /\ forallb package_name_unit s = true
  /\ forallb (fun c => negb (is_space c) && negb (between 65 90 c)) s = true.
Proof.
  intros H.
  assert (Hunits : s <> [] /\ forallb package_name_unit s = true).
  { apply package_name_re_language in H
      as [(c & r & -> & Hc & Hr) | (h & sc & c & r & -> & Hh & Hsc & Hc & Hr)].
    - split; [discriminate|]. simpl.
      rewrite (class_in_package_name_unit c) by auto.
      apply (forallb_weaken name_tail); [|exact Hr].
      intros x Hx. apply class_in_package_name_unit. auto.
    - split; [discriminate|]. cbn [forallb].
      rewrite (class_in_package_name_unit h) by auto.
      rewrite forallb_app. cbn [forallb].
      rewrite (class_in_package_name_unit c) by auto.
      rewrite (forallb_weaken scope_tail package_name_unit sc), (forallb_weaken name_tail package_name_unit r);
        auto; intros x Hx; apply class_in_package_name_unit; auto. }
  destruct Hunits as [Hne Hunits]. split; [exact Hne|]. split; [exact Hunits|].
  apply (forallb_weaken package_name_unit); [|exact Hunits].
  intros c Hc. destruct (package_name_unit_plain c Hc) as [-> ->]. reflexivity.
Qed.

Lemma isValidPackageName_units_witness :
  isValidPackageName (lit "@scope/pkg-1") = true
  /\ lit "@scope/pkg-1" <> []
  /\ forallb package_name_unit (lit "@scope/pkg-1") = true
  /\ forallb (fun c => negb (is_space c) && negb (between 65 90 c)) (lit "@scope/pkg-1") = true.
Proof.
  split; [reflexivity|].
  apply (isValidPackageName_units (lit "@scope/pkg-1")). reflexivity.
Defined.

(** X3: the names that [toValidPackageName] leaves as they are are exactly
    the strings made of units of [[a-z0-9\-~]]. *)
Theorem toValidPackageName_fixed_points (tbl : lower_table) (s : list Z) :
  toValidPackageName tbl s = s <-> forallb name_head s = true.
Proof.
  split.
  - intros H. rewrite <- H. apply toValidPackageName_name_head.
  - apply toValidPackageName_fixes_name_head.
Qed.

(** ** Directory listings *)

Lemma str_eqb_eq a b : str_eqb a b = true -> a = b.
Proof.
  revert b. induction a as [|x a IH]; intros [|y b]; simpl; try discriminate; auto.
  intros H. apply andb_true_iff in H as [Hx Hr].
  apply Z.eqb_eq in Hx. f_equal; auto.
Qed.

Lemma entry_name_Some p q n : entry_name p q = Some n <-> q = p ++ [n].
Proof.
  revert q. induction p as [|a p IH]; intros q; simpl.
  - destruct q as [|b [|b' q]]; split; try discriminate; congruence.
  - destruct q as [|b q]; [split; discriminate|].
    destruct (str_eqb a b) eqn:E.
    + apply str_eqb_eq in E. subst b. rewrite IH. split; congruence.
    + split; [discriminate|]. intros [= -> _]. rewrite str_eqb_refl in E. discriminate.
Qed.

(** The names [readdirSync] lists are those of the entries directly inside
    the directory, each once. *)
Lemma fs_readdir_entries (fs : gmap (list (list Z)) node) p entries :
  fs_readdir fs p = inr entries ->
  fs !! p = Some Dir
  /\ (forall n, n ∈ entries <-> is_Some (fs !! (p ++ [n])))
  /\ NoDup entries.
Proof.
  unfold fs_readdir. destruct (fs !! p) as [[text|]|] eqn:Hp; try discriminate.
  intros [= <-]. split; [reflexivity|]. split.
  - intros n. rewrite list_elem_of_omap. split.
    + intros ([q x] & Hin & Hname). apply elem_of_map_to_list in Hin.
      simpl in Hname. apply entry_name_Some in Hname. subst q. eauto.
    + intros [x Hx]. exists (p ++ [n], x). split.
      * apply elem_of_map_to_list. exact Hx.
      * simpl. apply entry_name_Some. reflexivity.
  - pose proof (NoDup_fst_map_to_list fs) as Hnd.
    induction (map_to_list fs) as [|[q x] l IH]; simpl; [constructor|].
    simpl in Hnd. apply NoDup_cons in Hnd as [Hq Hl].
    destruct (entry_name p q) as [n|] eqn:Hn; [|auto].
    apply NoDup_cons. split; [|auto].
    rewrite list_elem_of_omap. intros ([q' x'] & Hin & Hn').
    simpl in Hn'. apply entry_name_Some in Hn, Hn'. subst q q'.
    apply Hq. apply list_elem_of_fmap. exists (p ++ [n], x'). auto.
Qed.

Lemma all_git_listing (entries : list (list Z)) :
  NoDup entries ->
  ((length entries =? 0)%nat
   || ((length entries =? 1)%nat
       && match head entries with
          | Some f => str_eqb f (lit ".git")
          | None => false
          end) = true
   <-> forall n, n ∈ entries -> n = lit ".git").
Proof.
  intros Hnd. destruct entries as [|a [|b rest]]; simpl.
  - split; [|reflexivity]. intros _ n Hn. inversion Hn.
  - split.
    + intros H n Hn. apply str_eqb_eq in H. apply list_elem_of_singleton in Hn. congruence.
    + intros H. rewrite (H a) by (left). reflexivity.
  - split; [discriminate|]. intros H. exfalso.
    apply NoDup_cons in Hnd as [Ha _]. apply Ha.
    rewrite (H a), (H b) by (repeat constructor). left.
Qed.

(** X4: [isEmpty] answers [true] exactly for a directory in which nothing
    but an entry named [.git] is found; it answers [false] for a directory
    with any other entry, and throws for a path that is missing or is a
    file. *)
Theorem isEmpty_characterized (fs : gmap (list (list Z)) node) (p : list (list Z)) :
  (isEmpty_on fs p = inr true
   <-> fs !! p = Some Dir
       /\ forall n, is_Some (fs !! (p ++ [n])) -> n = lit ".git")
  /\ (isEmpty_on fs p = inr false
      <-> fs !! p = Some Dir
          /\ exists n, is_Some (fs !! (p ++ [n])) /\ n <> lit ".git")
  /\ (isEmpty_on fs p = inl ENOENT <-> fs !! p = None)
  /\ (isEmpty_on fs p = inl ENOTDIR <-> exists text, fs !! p = Some (File text)).
Proof.
  unfold isEmpty_on.
  destruct (fs_readdir fs p) as [code|entries] eqn:Hread.
  - unfold fs_readdir in Hread.
    destruct (fs !! p) as [[text|]|] eqn:Hp; try discriminate; injection Hread as <-.
    + split; [split; [discriminate | intros [H _]; discriminate H]|].
      split; [split; [discriminate | intros [H _]; discriminate H]|].
      split; [split; discriminate|].
      split; eauto.
    + split; [split; [discriminate | intros [H _]; discriminate H]|].
      split; [split; [discriminate | intros [H _]; discriminate H]|].
      split; [split; reflexivity|].
      split; [discriminate | intros (t & H); discriminate H].
  - destruct (fs_readdir_entries fs p entries Hread) as (Hdir & Hin & Hnd).
    pose proof (all_git_listing entries Hnd) as Hgit.
    destruct ((length entries =? 0)%nat || _) eqn:Hb.
    + assert (Hall : forall n, is_Some (fs !! (p ++ [n])) -> n = lit ".git").
      { intros n Hn. apply Hgit; [reflexivity | apply Hin, Hn]. }
      clear Hgit.
      split; [split; auto|]. split; [|split].
      * split; [discriminate|]. intros (_ & n & Hn & Hne). elim Hne. auto.
      * rewrite Hdir. split; discriminate.
      * rewrite Hdir. split; [discriminate|]. intros (t & H). discriminate H.
    + split; [|split; [|split]].
      * split; [discriminate|]. intros [_ Hall].
        assert (false = true) as Habs; [|discriminate Habs].
        apply Hgit. intros n Hn. apply Hall, Hin, Hn.
      * split; [|reflexivity]. intros _. split; [exact Hdir|].
        destruct (decide (Forall (fun n => n = lit ".git") entries)) as [Hf|Hf].
        -- exfalso. assert (false = true) as Habs; [|discriminate Habs].
           apply Hgit. intros n Hn.
           rewrite Forall_forall in Hf. apply Hf, Hn.
        -- apply not_Forall_Exists in Hf; [|intros n; apply _].
           apply Exists_exists in Hf as (n & Hn & Hne).
           exists n. split; [apply Hin, Hn | exact Hne].
      * rewrite Hdir. split; discriminate.
      * rewrite Hdir. split; [discriminate|]. intros (t & H). discriminate H.
Qed.

(** ** What the fetch returns *)

Lemma received_S server n :
  received server (S n) = received server n ++ page_templates server n.
Proof.
  unfold received. rewrite seq_S, flat_map_app. simpl. rewrite app_nil_r. reflexivity.
Qed.

Lemma fetch_loop_returns server fuel sent ts n :
  fetch_loop server fuel sent (received server sent) = (Fetched ts, n) ->
  (sent < n <= sent + fuel)%nat
  /\ ts = received server n
  /\ forall i, (sent <= i < n)%nat ->
       exists items total,
         server i = Page items total
         /\ ((S i < n)%nat -> Z.of_nat (length (received server (S i))) < total)
         /\ (S i = n -> total <= Z.of_nat (length (received server n))).
Proof.
  revert sent. induction fuel as [|fuel IH]; intros sent H; simpl in H; [discriminate H|].
  destruct (server sent) as [e|items total] eqn:Hsrv; [discriminate H|].
  assert (Hnext : received server sent ++ map to_template items = received server (S sent)).
  { rewrite received_S. unfold page_templates. rewrite Hsrv. reflexivity. }
  rewrite Hnext in H.
  destruct (Z.ltb_spec (Z.of_nat (length (received server (S sent)))) total) as [Hlt|Hge].
  - apply IH in H as (Hn & Hts & Hpages).
    split; [lia|]. split; [exact Hts|].
    intros i Hi. destruct (decide (i = sent)) as [->|Hne].
    + exists items, total. split; [exact Hsrv|]. split; [intros _; exact Hlt | lia].
    + apply Hpages. lia.
  - injection H as <- <-. split; [lia|]. split; [reflexivity|].
    intros i Hi. assert (i = sent) as -> by lia.
    exists items, total. split; [exact Hsrv|]. split; [lia | intros _; exact Hge].
Qed.

(** X5: whenever the fetch returns, it has sent at least one request; the
    list it returns is made of the items of every answer it received, in the
    order of the requests; every answer but the last reported more than had
    been accumulated, and the last reported no more than the length of the
    returned list. *)
Theorem fetchTemplateRepositories_returns
    (server : Server) (fuel : nat) (ts : list ITemplate) (n : nat) :
  fetchTemplateRepositories server fuel = (Fetched ts, n) ->
  (1 <= n <= fuel)%nat
  /\ ts = received server n
  /\ forall i, (i < n)%nat ->
       exists items total,
         server i = Page items total
         /\ ((S i < n)%nat -> Z.of_nat (length (received server (S i))) < total)
         /\ (S i = n -> total <= Z.of_nat (length (received server n))).
Proof.
  intros H. unfold fetchTemplateRepositories in H.
  apply (fetch_loop_returns server fuel 0) in H as (Hn & Hts & Hpages).
  split; [lia|]. split; [exact Hts|]. intros i Hi. apply Hpages. lia.
Qed.

Lemma fetchTemplateRepositories_returns_witness :
  (1 <= 2 <= 5)%nat
  /\ [to_template (sample_repo "t1"); to_template (sample_repo "t2")]
     = received two_page_server 2
  /\ forall i, (i < 2)%nat ->
       exists items total,
         two_page_server i = Page items total
         /\ ((S i < 2)%nat -> Z.of_nat (length (received two_page_server (S i))) < total)
         /\ (S i = 2%nat -> total <= Z.of_nat (length (received two_page_server 2))).
Proof.
  apply (fetchTemplateRepositories_returns two_page_server 5). reflexivity.
Defined.

Lemma collected_replicate (items : list Repo) (total : Z) (n : nat) :
  collected (replicate n (items, total)) = concat (replicate n (map to_template items)).
Proof.
  unfold collected. induction n as [|n IH]; simpl; [reflexivity|]. rewrite IH. reflexivity.
Qed.

Lemma length_concat_replicate {A} (x : list A) (n : nat) :
  length (concat (replicate n x)) = (n * length x)%nat.
Proof.
  induction n as [|n IH]; simpl; [reflexivity|]. rewrite length_app, IH. reflexivity.
Qed.

Lemma concat_replicate_snoc {A} (x : list A) (n : nat) :
  concat (replicate n x) ++ x = concat (replicate (S n) x).
Proof.
  induction n as [|n IH]; [simpl; symmetry; apply app_nil_r|].
  change (concat (replicate (S n) x)) with (x ++ concat (replicate n x)) at 1.
  rewrite <- app_assoc, IH. reflexivity.
Qed.

Lemma more_after_replicate server (items : list Repo) (total : Z) (n : nat) :
  (forall i, server i = Page items total) ->
  (n = 0%nat \/ Z.of_nat (n * length items) < total) ->
  more_after server (replicate n (items, total)).
Proof.
  intros Hsrv Hn i items' total' Hi.
  apply lookup_replicate in Hi as [[= <- <-] Hlt].
  split; [apply Hsrv|].
  rewrite take_replicate, collected_replicate, length_concat_replicate, length_map.
  replace (S i `min` n)%nat with (S i) by lia.
  destruct Hn as [->|Hn]; [lia|]. nia.
Qed.

(** X6: the request is the same at every turn of the loop.  Against a
    service that answers every request with the same page, the fetch returns
    that page [k] times over, [k] being the number of pages of that size that
    reach the reported total: with more than one page of templates, every
    template comes several times. *)
Theorem fetchTemplateRepositories_repeats_page
    (server : Server) (items : list Repo) (total : Z) (k fuel : nat) :
  (forall i, server i = Page items total) ->
  (1 <= k <= fuel)%nat ->
  total <= Z.of_nat (k * length items) ->
  (k = 1%nat \/ Z.of_nat ((k - 1) * length items) < total) ->
  fetchTemplateRepositories server fuel
  = (Fetched (concat (replicate k (map to_template items))), k).
Proof.
  intros Hsrv Hk Hreach Hmore. unfold fetchTemplateRepositories.
  assert (Hrun : fetch_loop server fuel 0 []
                 = fetch_loop server (fuel - (k - 1)) (k - 1)
                     (collected (replicate (k - 1) (items, total)))).
  { pose proof (fetch_loop_pages server [] (replicate (k - 1) (items, total))
                  (fuel - (k - 1))) as H.
    rewrite app_nil_l, length_replicate in H.
    replace (k - 1 + (fuel - (k - 1)))%nat with fuel in H by lia.
    apply H. apply more_after_replicate; [exact Hsrv|].
    destruct Hmore; [left; lia | right; lia]. }
  rewrite Hrun.
  destruct (fuel - (k - 1))%nat as [|rest] eqn:Hrest; [lia|].
  simpl. rewrite Hsrv, collected_replicate, concat_replicate_snoc.
  replace (S (k - 1)) with k by lia.
  rewrite length_concat_replicate, length_map.
  destruct (Z.ltb_spec (Z.of_nat (k * length items)) total); [lia | reflexivity].
Qed.

Lemma fetchTemplateRepositories_repeats_page_witness :
  fetchTemplateRepositories (fun _ => Page [sample_repo "t1"] 3) 10
  = (Fetched (concat (replicate 3 (map to_template [sample_repo "t1"]))), 3%nat).
Proof.
  apply (fetchTemplateRepositories_repeats_page
           (fun _ => Page [sample_repo "t1"] 3) [sample_repo "t1"] 3 3 10);
    [reflexivity | lia | simpl; lia | right; simpl; lia].
Defined.

(** X7: a service that keeps answering with an empty page and a positive
    total keeps the loop running for ever: whatever the number of requests
    allowed, the fetch is still pending after all of them. *)
Theorem fetchTemplateRepositories_never_returns
    (server : Server) (total : Z) (fuel : nat) :
  (forall i, server i = Page [] total) ->
  0 < total ->
  fetchTemplateRepositories server fuel = (FetchPending, fuel).
Proof.
  intros Hsrv Hpos. unfold fetchTemplateRepositories.
  pose proof (fetch_loop_pages server [] (replicate fuel ([], total)) 0) as Hrun.
  rewrite app_nil_l, length_replicate, Nat.add_0_r in Hrun.
  apply Hrun.
  apply more_after_replicate; [exact Hsrv|]. right. simpl. lia.
Qed.

Lemma fetchTemplateRepositories_never_returns_witness :
  fetchTemplateRepositories (fun _ => Page [] 1) 7 = (FetchPending, 7%nat).
Proof.
  apply (fetchTemplateRepositories_never_returns (fun _ => Page [] 1) 1 7);
    [reflexivity | lia].
Defined.

(** ** What [init] has established when it starts the clone *)

Lemma init_started w repoTemplates s job s2 :
  init w repoTemplates s = (Ok (Some job), s2) ->
  exists result s1 selected,
    flow w repoTemplates
      (truthy (or_undefined (argv_template w) (argv_t w))
       && existsb (named (or_undefined (argv_template w) (argv_t w))) repoTemplates)
      {| files := files s; trace := trace s;
         targetDir := or_else (formatTargetDir (argv_0 w)) defaultTargetDir |}
    = (Ok result, s1)
    /\ match template result with
       | Some t => Some t
       | None => find (named (or_undefined (argv_template w) (argv_t w))) repoTemplates
       end = Some selected
    /\ job = {| pending_command :=
                  lit "git clone " ++ clone_url selected ++ lit " " ++ targetDir s1;
                pending_root := path_join (cwd w) (targetDir s1);
                pending_packageName := packageName result |}
    /\ targetDir s2 = targetDir s1
    /\ files s2
       = (if fs_exists (files s1) (path_join (cwd w) (targetDir s1))
          then fs_remove_tree (files s1) (path_join (cwd w) (targetDir s1))
          else files s1)
    /\ trace s2
       = trace s1
           ++ (if fs_exists (files s1) (path_join (cwd w) (targetDir s1))
               then [RmSync (path_join (cwd w) (targetDir s1)) true] else [])
           ++ [ConsoleLogCloning (path_join (cwd w) (targetDir s1));
               Exec (lit "git clone " ++ clone_url selected ++ lit " " ++ targetDir s1)].
Proof.
  rewrite init_unfold. cbv zeta.
  destruct (flow _ _ _ _) as [[result|e] s1] eqn:Hflow; [|discriminate].
  destruct (match template result with Some t => Some t | None => _ end)
    as [selected|] eqn:Hsel; [|discriminate].
  intros H. exists result, s1, selected.
  split; [reflexivity|]. split; [exact Hsel|].
  assert (Hcond : forall b,
             (negb (match overwrite result with Some b0 => b0 | None => false end)
              || match overwrite result with Some true => true | _ => false end) && b = b).
  { intros b. destruct (overwrite result) as [[|]|]; reflexivity. }
  rewrite Hcond in H.
  destruct (fs_exists (files s1) (path_join (cwd w) (targetDir s1)));
    injection H as <- <-; cbn [files trace targetDir];
    repeat split; rewrite <- ?app_assoc; reflexivity.
Qed.

Lemma first_accepted_valid validate initial attempts v :
  first_accepted validate initial attempts = Submit v -> validate v = true.
Proof.
  induction attempts as [|text rest IH]; cbn [first_accepted]; [discriminate|].
  destruct (validate (or_else (Some text) initial)) eqn:Hv; [|exact IH].
  intros [= <-]. exact Hv.
Qed.

(** X8: when [init] starts the clone, the name its callback will write into
    [package.json] - the package name that was entered, or the project name
    when that question was skipped - is a valid package name. *)
Theorem scaffold_name_is_valid
    (w : World) (repoTemplates : list ITemplate) (s : State) (job : Pending) (s2 : State) :
  init w repoTemplates s = (Ok (Some job), s2) ->
  isValidPackageName
    (or_else (pending_packageName job) (projectName_of w (targetDir s2))) = true.
Proof.
  intros H.
  apply init_started in H as (result & s1 & selected & Hflow & _ & -> & Hdir & _).
  cbn [pending_packageName]. rewrite Hdir.
  destruct (flow_effects w repoTemplates
              (truthy (or_undefined (argv_template w) (argv_t w))
               && existsb (named (or_undefined (argv_template w) (argv_t w))) repoTemplates)
              {| files := files s; trace := trace s;
                 targetDir := or_else (formatTargetDir (argv_0 w)) defaultTargetDir |})
    as (_ & Htd & _).
  rewrite Hflow in Htd. cbn [snd targetDir] in Htd.
  apply flow_completed in Hflow as (_ & _ & Hpkg & _).
  cbn [targetDir] in Hpkg. rewrite <- Htd in Hpkg.
  destruct Hpkg as [[-> Hvalid] | (v & -> & _ & Hacc)].
  - exact Hvalid.
  - apply first_accepted_valid in Hacc.
    destruct v as [|c r]; [discriminate Hacc | exact Hacc].
Qed.

Lemma scaffold_name_is_valid_witness :
  isValidPackageName (lit "demo-app") = true.
Proof.
  apply (scaffold_name_is_valid scaffold_world [to_template (sample_repo "t1")]
           {| files := demo_disk; trace := []; targetDir := [] |}
           {| pending_command :=
                lit "git clone https://github.com/congnv0330/t1.git Demo-App";
              pending_root := [lit "work"; lit "Demo-App"];
              pending_packageName := Some (lit "demo-app") |}
           {| files := demo_disk;
              trace := [Asked QProjectName; Asked QPackageName; Asked QTemplate;
                        ConsoleLogCloning [lit "work"; lit "Demo-App"];
                        Exec (lit "git clone https://github.com/congnv0330/t1.git Demo-App")];
              targetDir := lit "Demo-App" |}).
  vm_compute. reflexivity.
Defined.

(** ** Consent and interruption *)

Lemma mutations_questions asked :
  forallb is_question asked = true -> mutations asked = [].
Proof.
  induction asked as [|ev asked IH]; [reflexivity|].
  simpl. intros H. apply andb_true_iff in H as [Hev Hrest].
  destruct ev; try discriminate. simpl. apply IH, Hrest.
Qed.

(** The run of the whole program when the flow throws. *)
Lemma main_flow_thrown fuel w repoTemplates e s1 :
  fst (fetchTemplateRepositories (server w) fuel) = Fetched repoTemplates ->
  flow w repoTemplates
    (truthy (or_undefined (argv_template w) (argv_t w))
     && existsb (named (or_undefined (argv_template w) (argv_t w))) repoTemplates)
    {| files := disk w; trace := [];
       targetDir := or_else (formatTargetDir (argv_0 w)) defaultTargetDir |}
  = (Throw e, s1) ->
  exists asked,
    forallb is_question asked = true
    /\ main fuel w
       = {| outcome := Finished;
            final := {| files := disk w;
                        trace := asked ++ [ConsoleLogMessage e];
                        targetDir := targetDir s1 |} |}.
Proof.
  intros Hfetch Hflow.
  destruct (flow_effects w repoTemplates
              (truthy (or_undefined (argv_template w) (argv_t w))
               && existsb (named (or_undefined (argv_template w) (argv_t w))) repoTemplates)
              {| files := disk w; trace := [];
                 targetDir := or_else (formatTargetDir (argv_0 w)) defaultTargetDir |})
    as (Hfiles & _ & asked & Htrace & Hasked).
  rewrite Hflow in Hfiles, Htrace. cbn [snd files trace] in Hfiles, Htrace.
  exists asked. split; [exact Hasked|].
  unfold main. rewrite Hfetch, init_unfold. cbv zeta. cbn [files trace targetDir].
  rewrite Hflow, Hfiles, Htrace. reflexivity.
Qed.

(** X10: whenever the flow throws - a question is aborted, the overwrite
    is declined, or [isEmpty] throws because the target is a file - the
    handler prints the message of the exception and the program ends with
    the file system it started with, having removed, cloned and written
    nothing. *)
Theorem interrupted_flow_changes_nothing
    (fuel : nat) (w : World) (repoTemplates : list ITemplate) (e : Exn) (s1 : State) :
  fst (fetchTemplateRepositories (server w) fuel) = Fetched repoTemplates ->
  flow w repoTemplates
    (truthy (or_undefined (argv_template w) (argv_t w))
     && existsb (named (or_undefined (argv_template w) (argv_t w))) repoTemplates)
    {| files := disk w; trace := [];
       targetDir := or_else (formatTargetDir (argv_0 w)) defaultTargetDir |}
  = (Throw e, s1) ->
  outcome (main fuel w) = Finished
  /\ files (final (main fuel w)) = disk w
  /\ mutations (trace (final (main fuel w))) = []
  /\ last (trace (final (main fuel w))) = Some (ConsoleLogMessage e).
Proof.
  intros Hfetch Hflow.
  destruct (main_flow_thrown fuel w repoTemplates e s1 Hfetch Hflow) as (asked & Hq & ->).
  cbn [outcome final files trace].
  split; [reflexivity|]. split; [reflexivity|]. split.
  - unfold mutations. rewrite List.filter_app. fold (mutations asked).
    rewrite (mutations_questions asked Hq). reflexivity.
  - apply last_snoc.
Qed.

Lemma interrupted_flow_changes_nothing_witness :
  outcome (main 3 file_in_the_way_world) = Finished
  /\ files (final (main 3 file_in_the_way_world)) = disk file_in_the_way_world
  /\ mutations (trace (final (main 3 file_in_the_way_world))) = []
  /\ last (trace (final (main 3 file_in_the_way_world)))
     = Some (ConsoleLogMessage (FsError ENOTDIR)).
Proof.
  apply (interrupted_flow_changes_nothing 3 file_in_the_way_world
           [to_template (sample_repo "t1")] (FsError ENOTDIR)
           {| files := demo_disk; trace := [Asked QProjectName];
              targetDir := lit "demo/README.md" |});
    vm_compute; reflexivity.
Defined.

(** ** The variable [targetDir] *)

Lemma formatTargetDir_or_default_tidy x :
  tidy_dir (or_else (formatTargetDir x) defaultTargetDir) = true.
Proof.
  destruct x as [s|]; [|reflexivity]. simpl.
  rewrite replace_final_run_drop.
  destruct (drop_while_end (Z.eqb slash) (trim s)) as [|c r] eqn:E; [reflexivity|].
  unfold tidy_dir. simpl str_eqb. cbn [negb andb].
  apply andb_true_iff. split.
  - unfold starts_with. simpl.
    assert (Hc : head (drop_while_end (Z.eqb slash) (trim s)) = Some c) by (rewrite E; reflexivity).
    apply drop_while_end_head, trim_head in Hc. rewrite Hc. reflexivity.
  - unfold ends_with. rewrite <- E.
    destruct (last (drop_while_end (Z.eqb slash) (trim s))) as [d|] eqn:El; [|reflexivity].
    apply drop_while_end_last in El. rewrite El. reflexivity.
Qed.

Lemma typed_targetDir_tidy start states :
  tidy_dir start = true -> tidy_dir (typed_targetDir start states) = true.
Proof.
  unfold typed_targetDir. revert start.
  induction states as [|v states IH]; intros start Hstart; [exact Hstart|].
  cbn [fold_left]. apply IH. apply (formatTargetDir_or_default_tidy (Some v)).
Qed.

Lemma init_targetDir w repoTemplates s :
  targetDir (snd (init w repoTemplates s))
  = typed_targetDir (or_else (formatTargetDir (argv_0 w)) defaultTargetDir)
      (projectName_states (user w)).
Proof.
  rewrite init_unfold. cbv zeta.
  destruct (flow_effects w repoTemplates
              (truthy (or_undefined (argv_template w) (argv_t w))
               && existsb (named (or_undefined (argv_template w) (argv_t w))) repoTemplates)
              {| files := files s; trace := trace s;
                 targetDir := or_else (formatTargetDir (argv_0 w)) defaultTargetDir |})
    as (_ & Htd & _).
  cbn [targetDir] in Htd. rewrite <- Htd.
  destruct (flow _ _ _ _) as [[result|e] s1]; [|reflexivity].
  cbn [snd].
  destruct (_ && fs_exists _ _);
    destruct (match template result with Some t => Some t | None => _ end); reflexivity.
Qed.

(** X11: whatever the command line and the keystrokes, the [targetDir]
    that [init] works with is tidy: it is not empty (an input that is empty
    once formatted gives way to [my-project]), it does not start with
    whitespace and it does not end with a slash. *)
Theorem init_targetDir_is_tidy
    (w : World) (repoTemplates : list ITemplate) (s : State) :
  tidy_dir (targetDir (snd (init w repoTemplates s))) = true
  /\ targetDir (snd (init w repoTemplates s)) <> [].
Proof.
  rewrite init_targetDir.
  assert (H : tidy_dir (typed_targetDir
                          (or_else (formatTargetDir (argv_0 w)) defaultTargetDir)
                          (projectName_states (user w))) = true)
    by apply typed_targetDir_tidy, formatTargetDir_or_default_tidy.
  split; [exact H|].
  intros Hnil. rewrite Hnil in H. discriminate H.
Qed.

(** ** The template that is cloned *)

Lemma existsb_find {A} (f : A -> bool) l :
  existsb f l = true -> exists x, find f l = Some x /\ f x = true.
Proof.
  induction l as [|a l IH]; simpl; [discriminate|].
  destruct (f a) eqn:Ha; [eauto|]. exact IH.
Qed.

(** ** The callback of the clone *)

Lemma is_prefix_extend p r : is_prefix p (p ++ r) = true.
Proof.
  induction p as [|a p IH]; simpl; [reflexivity|]. rewrite str_eqb_refl. exact IH.
Qed.

Lemma keeps_read {A} target (r : State -> Result A) :
  keeps target (fun s => (r s, s)).
Proof. intros s. reflexivity. Qed.

Lemma keeps_writeFileSync target p content :
  p <> target -> keeps target (writeFileSync p content).
Proof.
  intros Hp s. unfold writeFileSync, bind, emit, get_files, set_files, fs_write_file.
  cbn [files fst snd].
  destruct (files s !! removelast p) as [[t|]|]; try reflexivity;
    destruct (files s !! p) as [[t'|]|]; cbn; try reflexivity;
    apply lookup_insert_ne, Hp.
Qed.

(** Everything but [package.json] is as it was once the descriptor has been
    dealt with. *)
Lemma descriptor_keeps w root packageName target (has_pkg : bool) :
  target <> root ++ [lit "package.json"] ->
  keeps target
    (when has_pkg
       (text <- readFileSync (path_join root (lit "package.json")) ;;
        pkg <- match JSON_parse w text with
               | Some v => ret v
               | None => throw SyntaxError
               end ;;
        projectName <- getProjectName w ;;
        pkg' <- match assign_name pkg (or_else packageName projectName) with
                | Some v => ret v
                | None => throw TypeError
                end ;;
        write root (lit "package.json") (stringify pkg' ++ [newline])))%js.
Proof.
  intros Hne. destruct has_pkg; [|apply (keeps_read target (fun _ => Ok tt))].
  cbn [when].
  apply keeps_bind.
  { unfold readFileSync, get_files.
    apply keeps_bind; [apply (keeps_read target (fun s => Ok (files s)))|].
    intros fs. destruct (fs_read_file fs _); [apply (keeps_read target (fun _ => Throw _))
                                            | apply (keeps_read target (fun _ => Ok _))]. }
  intros text. apply keeps_bind.
  { destruct (JSON_parse w text); [apply (keeps_read target (fun _ => Ok _))
                                  | apply (keeps_read target (fun _ => Throw _))]. }
  intros pkg. apply keeps_bind.
  { unfold getProjectName.
    apply keeps_bind; [apply (keeps_read target (fun s => Ok (targetDir s)))|].
    intros d. apply (keeps_read target (fun _ => Ok _)). }
  intros projectName. apply keeps_bind.
  { destruct (assign_name pkg _); [apply (keeps_read target (fun _ => Ok _))
                                  | apply (keeps_read target (fun _ => Throw _))]. }
  intros pkg'. unfold write. rewrite path_join_package_json.
  apply keeps_writeFileSync. congruence.
Qed.

(** The file system after a clean-up that ran to its end. *)
Lemma cleanup_done root s s' :
  (rmSync_recursive_force (path_join root (lit ".git")) ;;
   rmSync_force (path_join root (lit "package-lock.json")) ;;
   rmSync_force (path_join root (lit "yarn.lock")) ;;
   emit ConsoleLogDone)%js s = (Ok tt, s') ->
  files s'
  = delete (root ++ [lit "yarn.lock"])
      (delete (root ++ [lit "package-lock.json"])
         (fs_remove_tree (files s) (root ++ [lit ".git"])))
  /\ last (trace s') = Some ConsoleLogDone.
Proof.
  change (path_join root (lit ".git")) with (root ++ [lit ".git"]).
  change (path_join root (lit "package-lock.json")) with (root ++ [lit "package-lock.json"]).
  change (path_join root (lit "yarn.lock")) with (root ++ [lit "yarn.lock"]).
  unfold bind at 1.
  unfold rmSync_recursive_force at 1, bind at 1, bind at 1, emit at 1, get_files, set_files.
  cbn [files trace targetDir fst snd].
  set (fs1 := fs_remove_tree (files s) (root ++ [lit ".git"])).
  unfold bind at 1.
  unfold rmSync_force at 1, bind at 1, bind at 1, emit at 1, get_files, set_files.
  cbn [files trace targetDir fst snd].
  unfold bind at 1. unfold fs_remove_file at 1.
  destruct (fs1 !! (root ++ [lit "package-lock.json"])) as [[t1|]|] eqn:H1;
    cbn [lift_fs ret throw]; [|discriminate|].
  - cbn [files trace targetDir fst snd].
    set (fs2 := delete (root ++ [lit "package-lock.json"]) fs1).
    unfold bind at 1.
    unfold rmSync_force at 1, bind at 1, bind at 1, emit at 1, get_files, set_files.
    cbn [files trace targetDir fst snd].
    unfold bind at 1. unfold fs_remove_file at 1.
    destruct (fs2 !! (root ++ [lit "yarn.lock"])) as [[t2|]|] eqn:H2;
      cbn [lift_fs ret throw]; [|discriminate|].
    + cbn [files trace targetDir fst snd emit]. intros [= <-]. cbn [files trace].
      split; [reflexivity | apply last_snoc].
    + cbn [files trace targetDir fst snd emit]. intros [= <-]. cbn [files trace].
      split; [symmetry; apply delete_id; exact H2 | apply last_snoc].
  - cbn [files trace targetDir fst snd].
    assert (Hfs2 : delete (root ++ [lit "package-lock.json"]) fs1 = fs1)
      by (apply delete_id; exact H1).
    rewrite Hfs2.
    unfold bind at 1.
    unfold rmSync_force at 1, bind at 1, bind at 1, emit at 1, get_files, set_files.
    cbn [files trace targetDir fst snd].
    unfold bind at 1. unfold fs_remove_file at 1.
    destruct (fs1 !! (root ++ [lit "yarn.lock"])) as [[t2|]|] eqn:H2;
      cbn [lift_fs ret throw]; [|discriminate|].
    + cbn [files trace targetDir fst snd emit]. intros [= <-]. cbn [files trace].
      split; [reflexivity | apply last_snoc].
    + cbn [files trace targetDir fst snd emit]. intros [= <-]. cbn [files trace].
      split; [symmetry; apply delete_id; exact H2 | apply last_snoc].
Qed.

(** The state after a callback that ran to its end. *)
Lemma callback_done
    (w : World) (root : list (list Z)) (packageName : option (list Z)) (s s' : State) :
  clone_callback w root packageName None s = (Ok tt, s') ->
  (forall rest, files s' !! (root ++ lit ".git" :: rest) = None)
  /\ files s' !! (root ++ [lit "package-lock.json"]) = None
  /\ files s' !! (root ++ [lit "yarn.lock"]) = None
  /\ (forall q,
         is_prefix (root ++ [lit ".git"]) q = false ->
         q <> root ++ [lit "package-lock.json"] ->
         q <> root ++ [lit "yarn.lock"] ->
         q <> root ++ [lit "package.json"] ->
         files s' !! q = files s !! q)
  /\ last (trace s') = Some ConsoleLogDone.
Proof.
  intros H. unfold clone_callback in H.
  unfold bind at 1 in H. unfold existsSync at 1, bind at 1, get_files, ret in H.
  cbn [fst snd files] in H.
  set (has_pkg := fs_exists (files s) (path_join root (lit "package.json"))) in H.
  unfold bind at 1 in H.
  match type of H with
  | context [when has_pkg ?d s] =>
      pose proof (fun q Hq => descriptor_keeps w root packageName q has_pkg Hq s) as Hkeep;
      destruct (when has_pkg d s) as [[[]|e] sw] eqn:Hdesc; [|discriminate H]
  end.
  cbn [snd] in Hkeep.
  apply cleanup_done in H as [Hfiles Hlast].
  split; [|split; [|split; [|split; [|exact Hlast]]]].
  - intros rest. rewrite Hfiles.
    apply lookup_delete_None. right. apply lookup_delete_None. right.
    apply map_lookup_filter_None. right. intros x _. cbn [fst].
    change (root ++ lit ".git" :: rest) with (root ++ [lit ".git"] ++ rest).
    rewrite app_assoc, is_prefix_extend. discriminate.
  - rewrite Hfiles. apply lookup_delete_None. right. apply lookup_delete_eq.
  - rewrite Hfiles. apply lookup_delete_eq.
  - intros q Hgit Hl1 Hl2 Hpkg. rewrite Hfiles.
    rewrite lookup_delete_ne by congruence. rewrite lookup_delete_ne by congruence.
    assert (Hsw : files sw !! q = files s !! q).
    { pose proof (f_equal snd Hdesc) as Hsnd. cbn [snd] in Hsnd.
      rewrite <- Hsnd. exact (Hkeep q Hpkg). }
    rewrite <- Hsw. unfold fs_remove_tree.
    destruct (files sw !! q) as [x|] eqn:E.
    + apply map_lookup_filter_Some. split; [exact E | exact Hgit].
    + apply map_lookup_filter_None. left. exact E.
Qed.

(** X14: when the callback of a successful clone runs to its end, nothing is
    left of the [.git] directory in the new directory, neither
    [package-lock.json] nor [yarn.lock] exists there, every entry other than
    these and [package.json] is as the clone left it, and [Done] is the last
    thing printed. *)
Theorem callback_cleans_up
    (w : World) (root : list (list Z)) (packageName : option (list Z)) (s s' : State) :
  clone_callback w root packageName None s = (Ok tt, s') ->
  (forall rest, files s' !! (root ++ lit ".git" :: rest) = None)
  /\ files s' !! (root ++ [lit "package-lock.json"]) = None
  /\ files s' !! (root ++ [lit "yarn.lock"]) = None
  /\ (forall q,
         is_prefix (root ++ [lit ".git"]) q = false ->
         q <> root ++ [lit "package-lock.json"] ->
         q <> root ++ [lit "yarn.lock"] ->
         q <> root ++ [lit "package.json"] ->
         files s' !! q = files s !! q)
  /\ last (trace s') = Some ConsoleLogDone.
Proof. apply callback_done. Qed.

Lemma callback_cleans_up_witness :
  (forall rest,
      files (snd (clone_callback scaffold_world [lit "work"; lit "Demo-App"]
                    (Some (lit "demo-app")) None cloned_state))
        !! ([lit "work"; lit "Demo-App"] ++ lit ".git" :: rest) = None)
  /\ files (snd (clone_callback scaffold_world [lit "work"; lit "Demo-App"]
                   (Some (lit "demo-app")) None cloned_state))
       !! ([lit "work"; lit "Demo-App"] ++ [lit "package-lock.json"]) = None
  /\ files (snd (clone_callback scaffold_world [lit "work"; lit "Demo-App"]
                   (Some (lit "demo-app")) None cloned_state))
       !! ([lit "work"; lit "Demo-App"] ++ [lit "yarn.lock"]) = None
  /\ (forall q,
         is_prefix ([lit "work"; lit "Demo-App"] ++ [lit ".git"]) q = false ->
         q <> [lit "work"; lit "Demo-App"] ++ [lit "package-lock.json"] ->
         q <> [lit "work"; lit "Demo-App"] ++ [lit "yarn.lock"] ->
         q <> [lit "work"; lit "Demo-App"] ++ [lit "package.json"] ->
         files (snd (clone_callback scaffold_world [lit "work"; lit "Demo-App"]
                       (Some (lit "demo-app")) None cloned_state)) !! q
         = files cloned_state !! q)
  /\ last (trace (snd (clone_callback scaffold_world [lit "work"; lit "Demo-App"]
                         (Some (lit "demo-app")) None cloned_state)))
     = Some ConsoleLogDone.
Proof.
  apply (callback_cleans_up scaffold_world [lit "work"; lit "Demo-App"]
           (Some (lit "demo-app")) cloned_state).
  vm_compute. reflexivity.
Defined.

(** X15: when the cloned [package.json] cannot be rewritten - it is a
    directory, its text does not parse, or it parses to [null] or to a
    primitive - the callback throws at that point and leaves the file
    system as the clone made it: the [.git] directory and the lock files
    stay. *)
Theorem callback_stops_on_bad_descriptor
    (w : World) (root : list (list Z)) (packageName : option (list Z)) (s : State) :
  (files s !! (root ++ [lit "package.json"]) = Some Dir ->
   clone_callback w root packageName None s = (Throw (FsError EISDIR), s))
  /\ (forall text,
         files s !! (root ++ [lit "package.json"]) = Some (File text) ->
         JSON_parse w text = None ->
         clone_callback w root packageName None s = (Throw SyntaxError, s))
  /\ (forall text v,
         files s !! (root ++ [lit "package.json"]) = Some (File text) ->
         JSON_parse w text = Some v ->
         assign_name v (or_else packageName (projectName_of w (targetDir s))) = None ->
         clone_callback w root packageName None s = (Throw TypeError, s)).
Proof.
  unfold clone_callback. rewrite path_join_package_json.
  split; [|split].
  - intros Hdir.
    unfold bind at 1. unfold existsSync, bind at 1, get_files, ret, fs_exists.
    cbn [fst snd]. rewrite Hdir. cbn [when].
    unfold bind at 1. unfold bind at 1.
    unfold readFileSync, bind at 1, get_files, fs_read_file. rewrite Hdir. reflexivity.
  - intros text Hfile Hparse.
    unfold bind at 1. unfold existsSync, bind at 1, get_files, ret, fs_exists.
    cbn [fst snd]. rewrite Hfile. cbn [when].
    unfold bind at 1. unfold bind at 1.
    unfold readFileSync, bind at 1, get_files, fs_read_file. rewrite Hfile. cbn [lift_fs ret].
    unfold bind at 1. rewrite Hparse. reflexivity.
  - intros text v Hfile Hparse Hassign.
    unfold bind at 1. unfold existsSync, bind at 1, get_files, ret, fs_exists.
    cbn [fst snd]. rewrite Hfile. cbn [when].
    unfold bind at 1. unfold bind at 1.
    unfold readFileSync, bind at 1, get_files, fs_read_file. rewrite Hfile. cbn [lift_fs ret].
    unfold bind at 1. rewrite Hparse. cbn [ret].
    unfold bind at 1. unfold getProjectName, bind at 1, get_targetDir, ret.
    unfold bind at 1. rewrite Hassign. reflexivity.
Qed.

(** ** A run that prints [Done] *)

Lemma init_nothing_pending w repoTemplates s s2 :
  init w repoTemplates s = (Ok None, s2) ->
  exists e, last (trace s2) = Some (ConsoleLogMessage e).
Proof.
  rewrite init_unfold. cbv zeta.
  destruct (flow _ _ _ _) as [[result|e] s1].
  - destruct (match template result with Some t => Some t | None => _ end); discriminate.
  - intros [= <-]. exists e. cbn [trace]. apply last_snoc.
Qed.

Lemma child_run w job s :
  child w job s
  = (let '(error, fs') := shell w (pending_command job) (cwd w) (files s) in
     clone_callback w (pending_root job) (pending_packageName job) error
       {| files := fs'; trace := trace s; targetDir := targetDir s |}).
Proof.
  unfold child, bind at 1, get_files.
  destruct (shell w (pending_command job) (cwd w) (files s)) as [error fs'].
  reflexivity.
Qed.

(** X17: when the program finishes and [Done] is the last thing it has
    printed, the new directory [<cwd>/<targetDir>] holds nothing of a [.git]
    directory and neither [package-lock.json] nor [yarn.lock]. *)
Theorem done_means_clean (fuel : nat) (w : World) :
  outcome (main fuel w) = Finished ->
  last (trace (final (main fuel w))) = Some ConsoleLogDone ->
  (forall rest,
      files (final (main fuel w))
        !! (path_join (cwd w) (resolved_targetDir w) ++ lit ".git" :: rest) = None)
  /\ files (final (main fuel w))
       !! (path_join (cwd w) (resolved_targetDir w) ++ [lit "package-lock.json"]) = None
  /\ files (final (main fuel w))
       !! (path_join (cwd w) (resolved_targetDir w) ++ [lit "yarn.lock"]) = None.
Proof.
  unfold main.
  destruct (fst (fetchTemplateRepositories (server w) fuel)) as [repoTemplates|e|];
    [|discriminate|discriminate].
  destruct (init w repoTemplates {| files := disk w; trace := []; targetDir := [] |})
    as [[[job|]|e] s2] eqn:Hinit.
  - (* the clone was started *)
    pose proof (init_targetDir w repoTemplates
                  {| files := disk w; trace := []; targetDir := [] |}) as Htd.
    rewrite Hinit in Htd. cbn [snd] in Htd. fold (resolved_targetDir w) in Htd.
    apply init_started in Hinit as (result & s1 & selected & _ & _ & -> & Hdir & _).
    rewrite <- Hdir, Htd. clear Hdir Htd.
    rewrite child_run. cbn [pending_command pending_root pending_packageName].
    destruct (shell w _ (cwd w) (files s2)) as [[failure|] fs'].
    + cbn [clone_callback emit].
      intros _ Hlast. cbn [final trace] in Hlast. rewrite last_snoc in Hlast. discriminate Hlast.
    + destruct (clone_callback w _ _ None _) as [[[]|e] s'] eqn:Hcb; [|discriminate].
      intros _ _. cbn [final].
      apply callback_done in Hcb as (Hgit & Hl1 & Hl2 & _). auto.
  - intros _ Hlast. cbn [final] in Hlast.
    apply init_nothing_pending in Hinit as (e & He). congruence.
  - intros _ Hlast. cbn [final snd emit trace] in Hlast.
    rewrite last_snoc in Hlast. discriminate Hlast.
Qed.

Lemma done_means_clean_witness :
  (forall rest,
      files (final (main 3 scaffold_world))
        !! ([lit "work"; lit "Demo-App"] ++ lit ".git" :: rest) = None)
  /\ files (final (main 3 scaffold_world))
       !! ([lit "work"; lit "Demo-App"] ++ [lit "package-lock.json"]) = None
  /\ files (final (main 3 scaffold_world))
       !! ([lit "work"; lit "Demo-App"] ++ [lit "yarn.lock"]) = None.
Proof.
  apply (done_means_clean 3 scaffold_world); vm_compute; reflexivity.
Defined.

(** ** What [formatTargetDir] removes and what it keeps *)

Lemma drop_while_split p s :
  exists pre, s = pre ++ drop_while p s /\ forallb p pre = true.
Proof.
  induction s as [|a s (pre & Hs & Hpre)]; simpl.
  - exists []. auto.
  - destruct (p a) eqn:Ha.
    + exists (a :: pre). simpl. rewrite Ha, Hpre, <- Hs. auto.
    + exists []. auto.
Qed.

Lemma drop_while_fix p s : starts_with p s = false -> drop_while p s = s.
Proof.
  destruct s as [|a s]; [reflexivity|]. unfold starts_with. simpl. intros ->. reflexivity.
Qed.

Lemma drop_while_end_fix p s : ends_with p s = false -> drop_while_end p s = s.
Proof.
  intros H. destruct (drop_while_end_split p s) as (tl & Hs & Htl).
  destruct tl as [|a tl]; [rewrite app_nil_r in Hs; congruence|].
  rewrite Hs in H at 1.
  rewrite ends_with_app_class in H; [discriminate | exact Htl | discriminate].
Qed.

(** X18: [formatTargetDir] only removes from the two ends: the input is the
    result with whitespace before it and, after it, slashes followed by
    whitespace. *)
Theorem formatTargetDir_strips_ends (s r : list Z) :
  formatTargetDir (Some s) = Some r ->
  exists before slashes after,
    s = before ++ r ++ slashes ++ after
    /\ forallb is_space before = true
    /\ forallb (Z.eqb slash) slashes = true
    /\ forallb is_space after = true.
Proof.
  simpl. rewrite replace_final_run_drop. intros [= <-].
  destruct (drop_while_split is_space s) as (before & Hs & Hbefore).
  destruct (drop_while_end_split is_space (drop_while is_space s)) as (after & Ht & Hafter).
  fold (trim s) in Ht.
  destruct (drop_while_end_split (Z.eqb slash) (trim s)) as (slashes & Hr & Hslashes).
  exists before, slashes, after.
  split; [|auto].
  rewrite Hs at 1. rewrite Ht at 1. rewrite Hr at 1.
  rewrite <- !app_assoc. reflexivity.
Qed.

Lemma formatTargetDir_strips_ends_witness :
  exists before slashes after,
    lit "  foo//  " = before ++ lit "foo" ++ slashes ++ after
    /\ forallb is_space before = true
    /\ forallb (Z.eqb slash) slashes = true
    /\ forallb is_space after = true.
Proof.
  apply (formatTargetDir_strips_ends (lit "  foo//  ") (lit "foo")). reflexivity.
Defined.

(** X19: [formatTargetDir] gives a string back as it is exactly when the
    string has no whitespace at either end and no slash at its end. *)
Theorem formatTargetDir_fixed_points (s : list Z) :
  formatTargetDir (Some s) = Some s
  <-> starts_with is_space s = false
      /\ ends_with is_space s = false
      /\ ends_with (Z.eqb slash) s = false.
Proof.
  simpl. rewrite replace_final_run_drop. split.
  - intros [= H].
    destruct (drop_while_split is_space s) as (before & Hs & _).
    destruct (drop_while_end_split is_space (drop_while is_space s)) as (after & Ht & _).
    fold (trim s) in Ht.
    destruct (drop_while_end_split (Z.eqb slash) (trim s)) as (slashes & Hr & _).
    rewrite H in Hr.
    assert (Hlen : length s
                   = (length before + (length s + length slashes + length after))%nat).
    { rewrite Hs at 1. rewrite Ht at 1. rewrite Hr at 1.
      rewrite !length_app. lia. }
    assert (Htrim : trim s = s).
    { destruct slashes; [|simpl in Hlen; lia]. rewrite app_nil_r in Hr. exact Hr. }
    split; [|split].
    + unfold starts_with. destruct (head s) as [c|] eqn:E; [|reflexivity].
      rewrite <- Htrim in E. eapply trim_head; eauto.
    + unfold ends_with. destruct (last s) as [c|] eqn:E; [|reflexivity].
      rewrite <- Htrim in E. eapply trim_last; eauto.
    + unfold ends_with. destruct (last s) as [c|] eqn:E; [|reflexivity].
      rewrite <- H in E. eapply drop_while_end_last; eauto.
  - intros (Hstart & Hend & Hslash).
    assert (Htrim : trim s = s).
    { unfold trim. rewrite (drop_while_fix _ _ Hstart). apply drop_while_end_fix, Hend. }
    rewrite Htrim, (drop_while_end_fix _ _ Hslash). reflexivity.
Qed.

(** ** The default of the package-name question *)

(** X20: the package-name question offers [toValidPackageName] of the
    project name and validates with [isValidPackageName].  Submitting the
    empty text takes the offered name whenever that name is not empty; when
    the offered name is empty the submission is refused and the question is
    asked again. *)
Theorem offered_package_name_is_accepted
    (tbl : lower_table) (projectName : list Z) (rest : list (list Z)) :
  (toValidPackageName tbl projectName <> [] ->
   first_accepted isValidPackageName (toValidPackageName tbl projectName) ([] :: rest)
   = Submit (toValidPackageName tbl projectName))
  /\ (toValidPackageName tbl projectName = [] ->
      first_accepted isValidPackageName (toValidPackageName tbl projectName) ([] :: rest)
      = first_accepted isValidPackageName (toValidPackageName tbl projectName) rest).
Proof.
  pose proof (toValidPackageName_name_head tbl projectName) as Hall.
  cbn [first_accepted or_else].
  destruct (toValidPackageName tbl projectName) as [|c r] eqn:E.
  - split; [congruence|]. intros _. reflexivity.
  - split; [|discriminate]. intros _.
    rewrite (isValidPackageName_name_head c r Hall). reflexivity.
Qed.

(** ** The missing template *)

(** After a completed flow a template is at hand: the one selected, or the
    catalog entry that the flag names. *)
Lemma init_returns w repoTemplates s :
  exists pending s2, init w repoTemplates s = (Ok pending, s2).
Proof.
  rewrite init_unfold. cbv zeta.
  destruct (flow _ _ _ _) as [[result|e] s1] eqn:Hflow; [|eauto].
  apply flow_completed in Hflow as (_ & _ & _ & Htpl & _).
  destruct Htpl as [[Hvalid ->] | (_ & cursor & t & _ & _ & ->)].
  - apply andb_true_iff in Hvalid as [_ Hex].
    apply existsb_find in Hex as (t & -> & _). eauto.
  - eauto.
Qed.

Lemma throws_softly_bind {A B} (m : M A) (k : A -> M B) :
  throws_softly m -> (forall a, throws_softly (k a)) -> throws_softly (bind m k).
Proof.
  intros Hm Hk s e s'. unfold bind.
  destruct (m s) as [[a|e0] s0] eqn:E.
  - apply Hk.
  - intros [= <- <-]. eapply Hm, E.
Qed.

Lemma throws_softly_ret {A} (a : A) : throws_softly (ret a).
Proof. intros s e s' H. discriminate H. Qed.

Lemma throws_softly_cancel {A} : throws_softly (@throw A OperationCancelled).
Proof. intros s e s' [= <- _]. auto. Qed.

Lemma throws_softly_lift_fs {A} (r : FsErrorCode + A) : throws_softly (lift_fs r).
Proof.
  destruct r as [code|a]; [|apply throws_softly_ret].
  intros s e s' [= <- _]. eauto.
Qed.

Lemma throws_softly_ask {A} q (a : Answer A) : throws_softly (ask q a).
Proof.
  apply throws_softly_bind; [intros s e s' H; discriminate H|]. intros _.
  destruct a; [apply throws_softly_ret | apply throws_softly_cancel].
Qed.

Lemma throws_softly_when b : throws_softly (when b (throw OperationCancelled)).
Proof. destruct b; [apply throws_softly_cancel | apply throws_softly_ret]. Qed.

(** The flow throws cancellations and errors of the file system only. *)
Lemma flow_throws_softly w repoTemplates isValidTemplate :
  throws_softly (flow w repoTemplates isValidTemplate).
Proof.
  unfold flow.
  apply throws_softly_bind; [intros s e s' H; discriminate H|]. intros _.
  apply throws_softly_bind.
  { intros s e s' H. rewrite for_each_onState in H. discriminate H. }
  intros _.
  apply throws_softly_bind; [apply throws_softly_when|]. intros _.
  apply throws_softly_bind; [intros s e s' H; discriminate H|]. intros td.
  apply throws_softly_bind.
  { apply throws_softly_bind; [intros s e s' H; discriminate H|].
    intros fs. apply throws_softly_ret. }
  intros present.
  apply throws_softly_bind.
  { destruct present; simpl; [|apply throws_softly_ret].
    apply throws_softly_bind; [intros s e s' H; discriminate H|].
    intros fs. apply throws_softly_lift_fs. }
  intros skip.
  apply throws_softly_bind.
  { destruct skip; [apply throws_softly_ret|].
    apply throws_softly_bind; [apply throws_softly_ask|]. intros b. apply throws_softly_ret. }
  intros ov.
  apply throws_softly_bind; [apply throws_softly_when|]. intros _.
  apply throws_softly_bind.
  { apply throws_softly_bind; [intros s e s' H; discriminate H|].
    intros d. apply throws_softly_ret. }
  intros pn.
  apply throws_softly_bind.
  { destruct (isValidPackageName pn); [apply throws_softly_ret|].
    apply throws_softly_bind; [apply throws_softly_ask|]. intros v. apply throws_softly_ret. }
  intros pkg.
  apply throws_softly_bind.
  { destruct isValidTemplate; [apply throws_softly_ret|].
    unfold select. destruct (map to_choice repoTemplates); [apply throws_softly_cancel|].
    apply throws_softly_bind; [apply throws_softly_ask|].
    intros cursor. apply throws_softly_ret. }
  intros tpl. apply throws_softly_ret.
Qed.




(** ** What the handler of [init()] reports *)

Lemma emits_only_bind P {A B} (m : M A) (k : A -> M B) :
  emits_only P m -> (forall a, emits_only P (k a)) -> emits_only P (bind m k).
Proof.
  intros Hm Hk s. unfold bind.
  destruct (Hm s) as (evs & Ht & Hp).
  destruct (m s) as [[a|e] s1]; cbn [snd] in *.
  - destruct (Hk a s1) as (evs' & Ht' & Hp').
    exists (evs ++ evs'). rewrite Ht', Ht, app_assoc, forallb_app, Hp, Hp'. auto.
  - exists evs. auto.
Qed.

Lemma emits_only_silent P {A} (m : M A) :
  (forall s, trace (snd (m s)) = trace s) -> emits_only P m.
Proof. intros H s. exists []. rewrite H, app_nil_r. auto. Qed.

Lemma emits_only_emit (P : Event -> bool) ev : P ev = true -> emits_only P (emit ev).
Proof. intros H s. exists [ev]. cbn. rewrite H. auto. Qed.

Lemma emits_only_lift_fs P {A} (r : FsErrorCode + A) : emits_only P (lift_fs r).
Proof. apply emits_only_silent. intros s. destruct r; reflexivity. Qed.

Lemma emits_only_rmSync_force (P : Event -> bool) p :
  P (RmSync p false) = true -> emits_only P (rmSync_force p).
Proof.
  intros H. unfold rmSync_force.
  apply emits_only_bind; [apply emits_only_emit, H|]. intros _.
  apply emits_only_bind; [apply emits_only_silent; reflexivity|]. intros fs.
  apply emits_only_bind; [apply emits_only_lift_fs|]. intros fs'.
  apply emits_only_silent. reflexivity.
Qed.

(** The callback of the clone reports nothing through the handler of
    [init()]. *)
Lemma callback_reports_no_rejection w root packageName error :
  emits_only (fun ev => negb (reports_rejection ev))
    (clone_callback w root packageName error).
Proof.
  destruct error as [failure|]; [apply emits_only_emit; reflexivity|].
  unfold clone_callback.
  apply emits_only_bind.
  { unfold existsSync. apply emits_only_silent. reflexivity. }
  intros has_pkg. apply emits_only_bind.
  { destruct has_pkg; [|apply emits_only_silent; reflexivity]. cbn [when].
    apply emits_only_bind.
    { unfold readFileSync.
      apply emits_only_bind; [apply emits_only_silent; reflexivity|].
      intros fs. apply emits_only_lift_fs. }
    intros text. apply emits_only_bind.
    { destruct (JSON_parse w text); apply emits_only_silent; reflexivity. }
    intros pkg. apply emits_only_bind; [apply emits_only_silent; reflexivity|].
    intros projectName. apply emits_only_bind.
    { destruct (assign_name pkg _); apply emits_only_silent; reflexivity. }
    intros pkg'. unfold write, writeFileSync.
    apply emits_only_bind; [apply emits_only_emit; reflexivity|]. intros _.
    apply emits_only_bind; [apply emits_only_silent; reflexivity|]. intros fs.
    apply emits_only_bind; [apply emits_only_lift_fs|]. intros fs'.
    apply emits_only_silent. reflexivity. }
  intros _. apply emits_only_bind.
  { unfold rmSync_recursive_force.
    apply emits_only_bind; [apply emits_only_emit; reflexivity|]. intros _.
    apply emits_only_bind; [apply emits_only_silent; reflexivity|].
    intros fs. apply emits_only_silent. reflexivity. }
  intros _. apply emits_only_bind; [apply emits_only_rmSync_force; reflexivity|].
  intros _. apply emits_only_bind; [apply emits_only_rmSync_force; reflexivity|].
  intros _. apply emits_only_emit. reflexivity.
Qed.

Lemma init_reports_no_rejection w repoTemplates pending s2 :
  init w repoTemplates {| files := disk w; trace := []; targetDir := [] |}
  = (Ok pending, s2) ->
  existsb reports_rejection (trace s2) = false.
Proof.
  rewrite init_unfold. cbv zeta. cbn [files trace targetDir].
  destruct (flow_effects w repoTemplates
              (truthy (or_undefined (argv_template w) (argv_t w))
               && existsb (named (or_undefined (argv_template w) (argv_t w))) repoTemplates)
              {| files := disk w; trace := [];
                 targetDir := or_else (formatTargetDir (argv_0 w)) defaultTargetDir |})
    as (_ & _ & asked & Htrace & Hasked).
  assert (Hq : existsb reports_rejection asked = false).
  { clear - Hasked. induction asked as [|ev asked IH]; [reflexivity|].
    cbn in Hasked. apply andb_true_iff in Hasked as [Hev Hrest].
    destruct ev; try discriminate. cbn. apply IH, Hrest. }
  destruct (flow _ _ _ _) as [[result|e] s1]; cbn [snd trace app] in Htrace.
  - destruct (match template result with Some t => Some t | None => _ end);
      [|discriminate].
    destruct (_ && fs_exists _ _); intros [= _ <-]; cbn [trace];
      rewrite Htrace, !existsb_app, Hq; reflexivity.
  - intros [= _ <-]. cbn [trace]. rewrite Htrace, existsb_app, Hq. reflexivity.
Qed.



(** ** Consent before a change *)

(** X9: when the target directory, as the operating system reads the text
    that was typed, exists and is not empty, the program removes, clones or
    writes something only after the user has answered yes to the overwrite
    question. *)
Theorem change_requires_consent (fuel : nat) (w : World) :
  exists_at (disk w) (cwd w) (resolved_targetDir w) = true ->
  isEmpty_at (disk w) (cwd w) (resolved_targetDir w) = inr false ->
  mutations (trace (final (main fuel w))) <> [] ->
  overwrite_answer (user w) = Submit true.
Proof.
  intros Hex Hfull Hmut.
  destruct (fst (fetchTemplateRepositories (server w) fuel)) as [repoTemplates|e|] eqn:Hfetch.
  - destruct (flow w repoTemplates
                (truthy (or_undefined (argv_template w) (argv_t w))
                 && existsb (named (or_undefined (argv_template w) (argv_t w))) repoTemplates)
                {| files := disk w; trace := [];
                   targetDir := or_else (formatTargetDir (argv_0 w)) defaultTargetDir |})
      as [[result|e] s1] eqn:Hflow.
    + apply flow_completed in Hflow as (_ & Hov & _).
      cbn [files targetDir] in Hov. fold (resolved_targetDir w) in Hov.
      destruct Hov as [[_ [Hno | Hempty]] | (_ & _ & _ & Hyes)];
        [congruence | congruence | exact Hyes].
    + exfalso. apply Hmut.
      destruct (main_flow_thrown fuel w repoTemplates e s1 Hfetch Hflow) as (asked & Hq & ->).
      cbn [final trace]. unfold mutations.
      rewrite List.filter_app. fold (mutations asked).
      rewrite (mutations_questions asked Hq). reflexivity.
  - exfalso. apply Hmut. unfold main. rewrite Hfetch. reflexivity.
  - exfalso. apply Hmut. unfold main. rewrite Hfetch. reflexivity.
Qed.

Lemma change_requires_consent_witness :
  overwrite_answer (user consent_world) = Submit true.
Proof.
  apply (change_requires_consent 3 consent_world);
    vm_compute; [reflexivity | reflexivity | discriminate].
Defined.

(** X21: the overwrite question guards the text that was typed, as the
    operating system reads it, while the removal acts on
    [path.join(cwd, targetDir)]: for [demo/x/..], where [demo] exists and
    [demo/x] does not, [existsSync] answers [false], the question is not
    asked, and the project [demo] is removed with its file. *)
Lemma removal_without_question :
  exists_at (disk detour_world) (cwd detour_world) (resolved_targetDir detour_world) = false
  /\ path_join (cwd detour_world) (resolved_targetDir detour_world) = [lit "work"; lit "demo"]
  /\ existsb (fun ev => match ev with Asked QOverwrite => true | _ => false end)
       (trace (final (main 3 detour_world))) = false
  /\ In (RmSync [lit "work"; lit "demo"] true) (trace (final (main 3 detour_world)))
  /\ disk detour_world !! [lit "work"; lit "demo"; lit "README.md"]
     = Some (File (lit "# demo"))
  /\ files (final (main 3 detour_world)) !! [lit "work"; lit "demo"; lit "README.md"]
     = None.
Proof.
  vm_compute. repeat split; try reflexivity. do 3 right. left. reflexivity.
Qed.

(** ** The template flag *)

(** X12: when [--template] (or [-t]) holds a string that names a template
    of the catalog, the template question is not asked, and the clone that
    [init] starts takes the clone URL of the first catalog entry of that
    name. *)
Theorem valid_template_flag_is_used
    (w : World) (repoTemplates : list ITemplate) (s : State)
    (flag : list Z) (job : Pending) (s2 : State) :
  or_undefined (argv_template w) (argv_t w) = Some (ArgString flag) ->
  existsb (named (Some (ArgString flag))) repoTemplates = true ->
  flag <> [] ->
  init w repoTemplates s = (Ok (Some job), s2) ->
  exists t asked,
    find (named (Some (ArgString flag))) repoTemplates = Some t
    /\ name t = flag
    /\ pending_command job = lit "git clone " ++ clone_url t ++ lit " " ++ targetDir s2
    /\ trace s2 = trace s ++ asked
    /\ ~ In (Asked QTemplate) asked.
Proof.
  intros Hflag Hex Hne Hinit.
  apply init_started in Hinit
    as (result & s1 & selected & Hflow & Hsel & -> & Hdir & _ & Htrace).
  rewrite Hflag in Hflow, Hsel.
  assert (Htruthy : truthy (Some (ArgString flag)) = true)
    by (destruct flag; [congruence | reflexivity]).
  rewrite Htruthy, Hex in Hflow. cbn [andb] in Hflow.
  apply flow_completed in Hflow as (_ & _ & _ & Htpl & Hasked).
  destruct Htpl as [[_ Hnone] | [Hfalse _]]; [|discriminate Hfalse].
  rewrite Hnone in Hsel.
  exists selected. eexists. split; [exact Hsel|]. split.
  - apply find_some in Hsel as [_ Hnamed]. simpl in Hnamed. apply str_eqb_eq, Hnamed.
  - cbn [pending_command]. rewrite Hdir. split; [reflexivity|].
    rewrite Htrace, Hasked. cbn [trace]. rewrite <- !app_assoc. split; [reflexivity|].
    rewrite !in_app_iff.
    destruct (overwrite result), (packageName result),
      (fs_exists (files s1) (path_join (cwd w) (targetDir s1)));
      simpl; intuition discriminate.
Qed.

Lemma valid_template_flag_is_used_witness :
  exists t asked,
    find (named (Some (ArgString (lit "t1")))) [to_template (sample_repo "t1")] = Some t
    /\ name t = lit "t1"
    /\ lit "git clone https://github.com/congnv0330/t1.git bar"
       = lit "git clone " ++ clone_url t ++ lit " " ++ lit "bar"
    /\ [Asked QProjectName;
        ConsoleLogCloning [lit "work"; lit "bar"];
        Exec (lit "git clone https://github.com/congnv0330/t1.git bar")]
       = [] ++ asked
    /\ ~ In (Asked QTemplate) asked.
Proof.
  apply (valid_template_flag_is_used foo_bar_world [to_template (sample_repo "t1")]
           {| files := demo_disk; trace := []; targetDir := [] |}
           (lit "t1")
           {| pending_command := lit "git clone https://github.com/congnv0330/t1.git bar";
              pending_root := [lit "work"; lit "bar"];
              pending_packageName := None |}
           {| files := demo_disk;
              trace := [Asked QProjectName;
                        ConsoleLogCloning [lit "work"; lit "bar"];
                        Exec (lit "git clone https://github.com/congnv0330/t1.git bar")];
              targetDir := lit "bar" |});
    [reflexivity | reflexivity | discriminate | vm_compute; reflexivity].
Defined.

(** ** Which questions are asked *)

Lemma asked_or_not (q : Question) (ov pk : option unit) (skip : bool) (rest : list Event) :
  (forall ev, In ev rest -> is_question ev = false) ->
  In (Asked q)
     (([Asked QProjectName]
         ++ (match ov with Some _ => [Asked QOverwrite] | None => [] end)
         ++ (match pk with Some _ => [Asked QPackageName] | None => [] end)
         ++ (if skip then [] else [Asked QTemplate]))
        ++ rest)
  <-> q = QProjectName
      \/ (q = QOverwrite /\ ov <> None)
      \/ (q = QPackageName /\ pk <> None)
      \/ (q = QTemplate /\ skip = false).
Proof.
  intros Hrest. rewrite !in_app_iff. split.
  - intros [Hq | Hq].
    + destruct ov, pk, skip; simpl in Hq;
        repeat match goal with
               | H : _ \/ _ |- _ => destruct H
               | H : Asked _ = Asked _ |- _ => injection H as <-
               | H : False |- _ => destruct H
               end; try congruence; auto 10.
    + apply Hrest in Hq. discriminate Hq.
  - intros [-> | [[-> Hov] | [[-> Hpk] | [-> ->]]]]; left.
    + left. left. reflexivity.
    + right. left. destruct ov; [left; reflexivity | congruence].
    + right. right. left. destruct pk; [left; reflexivity | congruence].
    + right. right. right. left. reflexivity.
Qed.

(** X16: an [init] that starts a clone has asked the project name; it has
    asked for the overwrite exactly when the target, as the operating system
    reads the text, exists and [isEmpty] answers [false]; for the package
    name exactly when the project name is not a valid package name; and for
    the template exactly when the [--template] (or [-t]) flag is missing,
    falsy, not a string, or names no template of the catalog. *)
Theorem started_init_questions
    (w : World) (repoTemplates : list ITemplate) (s : State)
    (job : Pending) (s2 : State) :
  init w repoTemplates s = (Ok (Some job), s2) ->
  exists evs,
    trace s2 = trace s ++ evs
    /\ In (Asked QProjectName) evs
    /\ (In (Asked QOverwrite) evs
        <-> exists_at (files s) (cwd w) (resolved_targetDir w) = true
            /\ isEmpty_at (files s) (cwd w) (resolved_targetDir w) = inr false)
    /\ (In (Asked QPackageName) evs
        <-> isValidPackageName (projectName_of w (resolved_targetDir w)) = false)
    /\ (In (Asked QTemplate) evs
        <-> truthy (or_undefined (argv_template w) (argv_t w))
            && existsb (named (or_undefined (argv_template w) (argv_t w))) repoTemplates
            = false).
Proof.
  intros Hinit.
  apply init_started in Hinit
    as (result & s1 & selected & Hflow & _ & _ & _ & _ & Htrace).
  apply flow_completed in Hflow as (_ & Hov & Hpkg & Htpl & Hasked).
  cbn [files trace targetDir] in Hov, Hpkg, Hasked.
  fold (resolved_targetDir w) in Hov, Hpkg.
  rewrite Hasked in Htrace. rewrite <- app_assoc in Htrace.
  eexists. split; [exact Htrace|].
  assert (Hin : forall q,
             In (Asked q)
                (([Asked QProjectName]
                    ++ (match overwrite result with
                        | Some _ => [Asked QOverwrite] | None => [] end)
                    ++ (match packageName result with
                        | Some _ => [Asked QPackageName] | None => [] end)
                    ++ (if truthy (or_undefined (argv_template w) (argv_t w))
                           && existsb (named (or_undefined (argv_template w) (argv_t w)))
                                repoTemplates
                        then [] else [Asked QTemplate]))
                   ++ (if fs_exists (files s1) (path_join (cwd w) (targetDir s1))
                       then [RmSync (path_join (cwd w) (targetDir s1)) true] else [])
                   ++ [ConsoleLogCloning (path_join (cwd w) (targetDir s1));
                       Exec (lit "git clone " ++ clone_url selected
                               ++ lit " " ++ targetDir s1)])
             <-> q = QProjectName
                 \/ (q = QOverwrite /\ overwrite result <> None)
                 \/ (q = QPackageName /\ packageName result <> None)
                 \/ (q = QTemplate
                     /\ truthy (or_undefined (argv_template w) (argv_t w))
                        && existsb (named (or_undefined (argv_template w) (argv_t w)))
                             repoTemplates = false)).
  { intros q.
    assert (Hunit : forall A (o : option A),
               match o with Some _ => [Asked QOverwrite] | None => [] end
               = match option_map (fun _ => tt) o with
                 | Some _ => [Asked QOverwrite] | None => [] end)
      by (intros A []; reflexivity).
    assert (Hunit' : forall A (o : option A),
               match o with Some _ => [Asked QPackageName] | None => [] end
               = match option_map (fun _ => tt) o with
                 | Some _ => [Asked QPackageName] | None => [] end)
      by (intros A []; reflexivity).
    rewrite Hunit, Hunit', asked_or_not.
    - destruct (overwrite result), (packageName result); simpl; intuition congruence.
    - intros ev Hev. apply in_app_iff in Hev as [Hev | Hev].
      + destruct (fs_exists _ _); [|destruct Hev].
        destruct Hev as [<- | []]. reflexivity.
      + destruct Hev as [<- | [<- | []]]; reflexivity. }
  split; [apply Hin; left; reflexivity|].
  split; [|split].
  - rewrite Hin. split.
    + intros [Hq | [[_ Hsome] | [[Hq _] | [Hq _]]]]; try discriminate Hq.
      destruct Hov as [[Hnone _] | (_ & Hex & Hfull & _)]; [congruence | auto].
    + intros [Hex Hfull]. right. left. split; [reflexivity|].
      destruct Hov as [[_ [Hno | Hempty]] | (Hsome & _)]; congruence.
  - rewrite Hin. split.
    + intros [Hq | [[Hq _] | [[_ Hsome] | [Hq _]]]]; try discriminate Hq.
      destruct Hpkg as [[Hnone _] | (v & _ & Hinvalid & _)]; [congruence | exact Hinvalid].
    + intros Hinvalid. right. right. left. split; [reflexivity|].
      destruct Hpkg as [[_ Hvalid] | (v & Hsome & _)]; congruence.
  - rewrite Hin. split.
    + intros [Hq | [[Hq _] | [[Hq _] | [_ Hf]]]]; try discriminate Hq. exact Hf.
    + intros Hf. right. right. right. auto.
Qed.

Lemma started_init_questions_witness :
  exists evs,
    [Asked QProjectName; Asked QPackageName; Asked QTemplate;
     ConsoleLogCloning [lit "work"; lit "Demo-App"];
     Exec (lit "git clone https://github.com/congnv0330/t1.git Demo-App")]
    = [] ++ evs
    /\ In (Asked QProjectName) evs
    /\ (In (Asked QOverwrite) evs
        <-> exists_at demo_disk (cwd scaffold_world) (resolved_targetDir scaffold_world)
            = true
            /\ isEmpty_at demo_disk (cwd scaffold_world) (resolved_targetDir scaffold_world)
               = inr false)
    /\ (In (Asked QPackageName) evs
        <-> isValidPackageName
              (projectName_of scaffold_world (resolved_targetDir scaffold_world)) = false)
    /\ (In (Asked QTemplate) evs
        <-> truthy (or_undefined (argv_template scaffold_world) (argv_t scaffold_world))
            && existsb (named (or_undefined (argv_template scaffold_world)
                                 (argv_t scaffold_world)))
                 [to_template (sample_repo "t1")]
            = false).
Proof.
  apply (started_init_questions scaffold_world [to_template (sample_repo "t1")]
           {| files := demo_disk; trace := []; targetDir := [] |}
           {| pending_command :=
                lit "git clone https://github.com/congnv0330/t1.git Demo-App";
              pending_root := [lit "work"; lit "Demo-App"];
              pending_packageName := Some (lit "demo-app") |}
           {| files := demo_disk;
              trace := [Asked QProjectName; Asked QPackageName; Asked QTemplate;
                        ConsoleLogCloning [lit "work"; lit "Demo-App"];
                        Exec (lit "git clone https://github.com/congnv0330/t1.git Demo-App")];
              targetDir := lit "Demo-App" |}).
  vm_compute. reflexivity.
Defined.
